(** * A sandboxed file tool: [FileTool] of [other/filetool.py]

    The development embeds the class [FileTool] together with the part of
    its platform (POSIX [pathlib], [os]) that it calls.

    Conventions of the embedding.
    - A Python [str] is the Rocq [string] of its UTF-8 bytes.
    - A pure path ([Path(location)]) is a record of an anchor and parts.
    - A resolved, real path (the value of [Path.resolve()], of
      [self.root_path] and of [self.current_dir]) is always rooted at ["/"];
      it is represented by the list of its parts.
    - The file system is a tree of files, symbolic links and directories;
      the identity of a file (what [os.stat] compares in [samefile]) is its
      position in that tree.  There are no hard links, mount points,
      permission bits or name-length limits, and nothing but the tool
      changes the tree.
    - A Python exception is a value [Raise e] of the type [outcome]. *)

From Stdlib Require Import List Bool Arith Lia Ascii String DecimalString.
Import ListNotations.
Open Scope string_scope.

(* ================================================================== *)
(** ** Strings *)

Module Str.

Definition NUL : ascii := "000"%char.
Definition LF : ascii := "010"%char.
Definition CR : ascii := "013"%char.

(** [s.split(c)] for a one-character separator. *)
Fixpoint split (c : ascii) (s : string) : list string :=
  match s with
  | EmptyString => [EmptyString]
  | String a s' =>
      if Ascii.eqb a c then EmptyString :: split c s'
      else match split c s' with
           | x :: xs => String a x :: xs
           | [] => [String a EmptyString]
           end
  end.

(** [sep.join(l)] *)
Fixpoint join (sep : string) (l : list string) : string :=
  match l with
  | [] => EmptyString
  | [x] => x
  | x :: xs => x ++ sep ++ join sep xs
  end.

Fixpoint has_char (c : ascii) (s : string) : bool :=
  match s with
  | EmptyString => false
  | String a s' => Ascii.eqb a c || has_char c s'
  end.

(** [sub in s] *)
Fixpoint contains (sub s : string) : bool :=
  String.prefix sub s ||
  match s with
  | EmptyString => false
  | String _ s' => contains sub s'
  end.

Fixpoint drop (n : nat) (s : string) : string :=
  match n, s with
  | S n', String _ s' => drop n' s'
  | _, _ => s
  end.

Fixpoint rev (s : string) : string :=
  match s with
  | EmptyString => EmptyString
  | String a s' => rev s' ++ String a EmptyString
  end.

Definition of_bytes (l : list nat) : string :=
  fold_right (fun n s => String (ascii_of_nat n) s) EmptyString l.

(** The characters for which [str.isspace] holds, in UTF-8. *)
Definition whitespace : list string :=
  map of_bytes
    [ [9]; [10]; [11]; [12]; [13]; [28]; [29]; [30]; [31]; [32];
      [194; 133]; [194; 160]; [225; 154; 128];
      [226; 128; 128]; [226; 128; 129]; [226; 128; 130]; [226; 128; 131];
      [226; 128; 132]; [226; 128; 133]; [226; 128; 134]; [226; 128; 135];
      [226; 128; 136]; [226; 128; 137]; [226; 128; 138];
      [226; 128; 168]; [226; 128; 169]; [226; 128; 175];
      [226; 129; 159]; [227; 128; 128] ].

Fixpoint strip_left (ws : list string) (n : nat) (s : string) : string :=
  match n with
  | 0 => s
  | S n' =>
      match find (fun w => String.prefix w s) ws with
      | Some w => strip_left ws n' (drop (String.length w) s)
      | None => s
      end
  end.

Definition lstrip (s : string) : string :=
  strip_left whitespace (String.length s) s.

Definition rstrip (s : string) : string :=
  rev (strip_left (map rev whitespace) (String.length s) (rev s)).

(** [s.strip()] *)
Definition strip (s : string) : string := rstrip (lstrip s).

(** [str(n)] for a natural number. *)
Definition of_nat (n : nat) : string := NilZero.string_of_uint (Nat.to_uint n).

(** Reading in text mode with [newline=None]: ["\r\n"] and a lone ["\r"]
    both become ["\n"]. *)
Fixpoint universal_newlines (s : string) : string :=
  match s with
  | EmptyString => EmptyString
  | String a s' =>
      if Ascii.eqb a CR then
        match s' with
        | String b s'' =>
            if Ascii.eqb b LF then String LF (universal_newlines s'')
            else String LF (universal_newlines s')
        | EmptyString => String LF EmptyString
        end
      else String a (universal_newlines s')
  end.

End Str.

(** UTF-8 well-formedness (Unicode Table 3-7), the check of a strict
    [bytes.decode('utf-8')]. *)
Module Utf8.

Definition between (lo hi : nat) (a : ascii) : bool :=
  let n := nat_of_ascii a in Nat.leb lo n && Nat.leb n hi.

Definition cont : ascii -> bool := between 128 191.

(** The length of the well-formed sequence that starts [s], if any. *)
Definition lead (s : string) : option nat :=
  match s with
  | EmptyString => None
  | String a r =>
      if between 0 127 a then Some 1
      else match r with
      | EmptyString => None
      | String b r2 =>
          if between 194 223 a then (if cont b then Some 2 else None)
          else match r2 with
          | EmptyString => None
          | String c r3 =>
              if between 224 224 a then
                (if between 160 191 b && cont c then Some 3 else None)
              else if between 237 237 a then
                (if between 128 159 b && cont c then Some 3 else None)
              else if between 225 239 a then
                (if cont b && cont c then Some 3 else None)
              else match r3 with
              | EmptyString => None
              | String d _ =>
                  if between 240 240 a then
                    (if between 144 191 b && cont c && cont d then Some 4 else None)
                  else if between 241 243 a then
                    (if cont b && cont c && cont d then Some 4 else None)
                  else if between 244 244 a then
                    (if between 128 143 b && cont c && cont d then Some 4 else None)
                  else None
              end
          end
      end
  end.

Fixpoint valid_fuel (n : nat) (s : string) : bool :=
  match n with
  | 0 => match s with EmptyString => true | _ => false end
  | S n' =>
      match s with
      | EmptyString => true
      | _ => match lead s with
             | Some k => valid_fuel n' (Str.drop k s)
             | None => false
             end
      end
  end.

Definition valid (s : string) : bool := valid_fuel (String.length s) s.

End Utf8.

(* ================================================================== *)
(** ** Exceptions *)

Inductive errno : Type := ENOENT | EEXIST | ENOTDIR | EISDIR | ELOOP.

Definition errno_number (e : errno) : nat :=
  match e with
  | ENOENT => 2 | EEXIST => 17 | ENOTDIR => 20 | EISDIR => 21 | ELOOP => 40
  end.

Definition strerror (e : errno) : string :=
  match e with
  | ENOENT => "No such file or directory"
  | EEXIST => "File exists"
  | ENOTDIR => "Not a directory"
  | EISDIR => "Is a directory"
  | ELOOP => "Too many levels of symbolic links"
  end.

(** The exceptions that the platform raises under the tool.
    [OSError ENOENT] is [FileNotFoundError], [OSError EEXIST] is
    [FileExistsError], and so on. *)
Inductive exn : Type :=
| OSError (e : errno) (filename : string)
| RuntimeError (msg : string)
| ValueError (msg : string)
| UnicodeDecodeError.

(** [str(e)]; the file name is quoted as [repr] quotes a plain name. *)
Definition str_exn (e : exn) : string :=
  match e with
  | OSError n f =>
      "[Errno " ++ Str.of_nat (errno_number n) ++ "] " ++ strerror n
        ++ ": '" ++ f ++ "'"
  | RuntimeError m => m
  | ValueError m => m
  | UnicodeDecodeError => "'utf-8' codec can't decode bytes"
  end.

Inductive outcome (A : Type) : Type :=
| Ret (a : A)
| Raise (e : exn).

Arguments Ret {A} a.
Arguments Raise {A} e.

(** Computations that read and change a state of type [S] and may raise:
    the state reached is kept when an exception is raised. *)
Definition M (S A : Type) : Type := S -> outcome A * S.

Definition ret {S A : Type} (a : A) : M S A := fun s => (Ret a, s).

Definition bind {S A B : Type} (m : M S A) (k : A -> M S B) : M S B :=
  fun s =>
    match m s with
    | (Ret a, s') => k a s'
    | (Raise e, s') => (Raise e, s')
    end.

(** [try: m  except Exception as e: h e] *)
Definition try_except {S A : Type} (m : M S A) (h : exn -> M S A) : M S A :=
  fun s =>
    match m s with
    | (Ret a, s') => (Ret a, s')
    | (Raise e, s') => h e s'
    end.

(** A computation that only reads the state. *)
Definition reading {S A : Type} (f : S -> outcome A) : M S A :=
  fun s => (f s, s).

Notation "x <- m ;; k" := (bind m (fun x => k))
  (at level 61, m at next level, right associativity).

(** The result of a system call. *)
Inductive sysres (A : Type) : Type :=
| Ok (a : A)
| Err (e : errno).

Arguments Ok {A} a.
Arguments Err {A} e.

(* ================================================================== *)
(** ** Paths *)

Open Scope list_scope.

Fixpoint path_eqb (a b : list string) : bool :=
  match a, b with
  | [], [] => true
  | x :: a', y :: b' => (x =? y) && path_eqb a' b'
  | _, _ => false
  end.

Module Pathlib.

(** A [PurePosixPath]: the anchor is empty, ["/"] or ["//"]. *)
Record PurePath : Type := { anchor : string; parts : list string }.

(** [posixpath.splitroot], without the drive. *)
Definition splitroot (p : string) : string * string :=
  match p with
  | String "/" (String "/" (String "/" r)) => ("/", String "/" (String "/" r))
  | String "/" (String "/" r) => ("//", r)
  | String "/" r => ("/", r)
  | _ => (EmptyString, p)
  end.

(** [x and x != '.'] *)
Definition is_part (x : string) : bool :=
  negb (x =? EmptyString) && negb (x =? ".").

(** [Path(location)] *)
Definition Path (location : string) : PurePath :=
  let (root, rel) := splitroot location in
  {| anchor := root; parts := filter is_part (Str.split "/" rel) |}.

Definition is_absolute (p : PurePath) : bool := negb (anchor p =? EmptyString).

(** [p.relative_to(p.root)]: the same parts without the anchor. *)
Definition relative_to_root (p : PurePath) : PurePath :=
  {| anchor := EmptyString; parts := parts p |}.

(** [base / rel] for a real path [base]. *)
Definition joinpath (base : list string) (rel : PurePath) : list string :=
  if is_absolute rel then parts rel else base ++ parts rel.

(** [str(p)] for a real path. *)
Definition str (p : list string) : string := ("/" ++ Str.join "/" p)%string.

(** [str(p)] for a relative path: the empty path prints as a dot. *)
Definition str_rel (p : list string) : string :=
  match p with
  | [] => "."
  | _ => Str.join "/" p
  end.

Fixpoint proper_prefixes (q : list string) : list (list string) :=
  match q with
  | [] => []
  | x :: q' => [] :: map (cons x) (proper_prefixes q')
  end.

(** [q.parents], the nearest ancestor first. *)
Definition parents (q : list string) : list (list string) :=
  List.rev (proper_prefixes q).

(** [r in q.parents] *)
Definition in_parents (r q : list string) : bool :=
  existsb (path_eqb r) (parents q).

Fixpoint strip_prefix (r q : list string) : option (list string) :=
  match r, q with
  | [], _ => Some q
  | x :: r', y :: q' => if x =? y then strip_prefix r' q' else None
  | _ :: _, [] => None
  end.

(** [q.relative_to(r)] for real paths. *)
Definition relative_to (q r : list string) : outcome (list string) :=
  match strip_prefix r q with
  | Some s => Ret s
  | None =>
      Raise (ValueError ("'" ++ str q ++ "' is not in the subpath of '"
                           ++ str r ++ "'")%string)
  end.

End Pathlib.

(* ================================================================== *)
(** ** The file system *)

#[warnings="-register-all"] Inductive node : Type :=
| File (data : string)
| Link (target : string)
| Dir (entries : list (string * node)).

Module Posix.

Fixpoint assoc (name : string) (es : list (string * node)) : option node :=
  match es with
  | [] => None
  | (k, c) :: es' => if k =? name then Some c else assoc name es'
  end.

(** The node at a path, following no symbolic link. *)
Fixpoint lookup (fs : node) (p : list string) : sysres node :=
  match p with
  | [] => Ok fs
  | name :: p' =>
      match fs with
      | Dir es =>
          match assoc name es with
          | Some c => lookup c p'
          | None => Err ENOENT
          end
      | _ => Err ENOTDIR
      end
  end.

(** The target of the symbolic link at a path, if there is one. *)
Definition readlink (fs : node) (p : list string) : option string :=
  match lookup fs p with
  | Ok (Link t) => Some t
  | _ => None
  end.

Fixpoint set_entry (name : string) (v : node) (es : list (string * node))
  : list (string * node) :=
  match es with
  | [] => [(name, v)]
  | (k, c) :: es' =>
      if k =? name then (name, v) :: es' else (k, c) :: set_entry name v es'
  end.

(** The tree with the node at [p] set to [v]; the parent of [p] must be a
    directory of the tree. *)
Fixpoint put (fs : node) (p : list string) (v : node) : option node :=
  match p with
  | [] => Some v
  | name :: p' =>
      match fs with
      | Dir es =>
          match p' with
          | [] => Some (Dir (set_entry name v es))
          | _ :: _ =>
              match assoc name es with
              | Some c =>
                  match put c p' v with
                  | Some c' => Some (Dir (set_entry name c' es))
                  | None => None
                  end
              | None => None
              end
          end
      | _ => None
      end
  end.

Definition is_abs (target : string) : bool := String.prefix "/" target.

Definition segments (target : string) : list string :=
  filter Pathlib.is_part (Str.split "/" target).

Definition is_nil (l : list string) : bool :=
  match l with [] => true | _ => false end.

(** Path walk of the kernel from the directory [cur] over the components
    [rest]: every symbolic link is followed, at most [n] of them; with
    [creat] the last component may be missing. *)
Fixpoint namei (n : nat) (creat : bool) (fs : node)
  : list string -> list string -> sysres (list string) :=
  fix go (cur rest : list string) {struct rest} : sysres (list string) :=
    match rest with
    | [] => Ok cur
    | name :: rest' =>
        match lookup fs cur with
        | Ok (Dir es) =>
            if name =? ".." then go (removelast cur) rest'
            else
              match assoc name es with
              | Some (Link target) =>
                  match n with
                  | 0 => Err ELOOP
                  | S n' =>
                      namei n' creat fs (if is_abs target then [] else cur)
                        (segments target ++ rest')
                  end
              | Some _ => go (cur ++ [name]) rest'
              | None =>
                  if creat && is_nil rest' then Ok (cur ++ [name])
                  else Err ENOENT
              end
        | Ok _ => Err ENOTDIR
        | Err e => Err e
        end
    end.

Definition MAXSYMLINKS : nat := 40.

(** [os.stat(p)]: the file that [p] names, as its place in the tree, and
    the node there. *)
Definition stat (fs : node) (p : list string) : sysres (list string * node) :=
  match namei MAXSYMLINKS false fs [] p with
  | Ok q =>
      match lookup fs q with
      | Ok nd => Ok (q, nd)
      | Err e => Err e
      end
  | Err e => Err e
  end.

(** [os.mkdir(q)] *)
Definition mkdir (fs : node) (q : list string) : sysres node :=
  match q with
  | [] => Err EEXIST
  | _ :: _ =>
      let name := last q EmptyString in
      match namei MAXSYMLINKS false fs [] (removelast q) with
      | Ok d =>
          match lookup fs d with
          | Ok (Dir es) =>
              if name =? ".." then Err EEXIST
              else
                match assoc name es with
                | Some _ => Err EEXIST
                | None =>
                    match put fs (d ++ [name]) (Dir []) with
                    | Some fs' => Ok fs'
                    | None => Err ENOENT
                    end
                end
          | Ok _ => Err ENOTDIR
          | Err e => Err e
          end
      | Err e => Err e
      end
  end.

(** [open(q, 'wb')], [write(data)], [close()] *)
Definition write (fs : node) (q : list string) (data : string) : sysres node :=
  match namei MAXSYMLINKS true fs [] q with
  | Ok t =>
      match lookup fs t with
      | Ok (Dir _) => Err EISDIR
      | Ok (Link _) => Err ELOOP
      | Ok (File _) | Err ENOENT =>
          match put fs t (File data) with
          | Some fs' => Ok fs'
          | None => Err ENOENT
          end
      | Err e => Err e
      end
  | Err e => Err e
  end.

(** [open(q, 'rb')], [read()], [close()] *)
Definition read (fs : node) (q : list string) : sysres string :=
  match stat fs q with
  | Ok (_, File data) => Ok data
  | Ok (_, Dir _) => Err EISDIR
  | Ok (_, Link _) => Err ELOOP
  | Err e => Err e
  end.

(** [os.scandir(p)], the entries in the order of the directory. *)
Definition scandir (fs : node) (p : list string) : sysres (list (string * node)) :=
  match stat fs p with
  | Ok (_, Dir es) => Ok es
  | Ok _ => Err ENOTDIR
  | Err e => Err e
  end.

End Posix.

(* ================================================================== *)
(** ** [pathlib.Path] on the file system *)

Module Fs.

Import Pathlib.

(** [posixpath._joinrealpath] in non-strict mode.  [path] is the part
    resolved so far and [rest] what is left to walk.  [os.lstat] of
    [path/name] sees the node that [Posix.lookup] finds, since [path] holds
    no symbolic link.  Python detects a cycle of links and [Path.resolve]
    (up to 3.12) then raises [RuntimeError]; here a walk that expands more
    than [depth] links raises it. *)
Fixpoint joinrealpath (depth : nat) (fs : node)
  : list string -> list string -> outcome (list string) :=
  fix loop (path rest : list string) {struct rest} : outcome (list string) :=
    match rest with
    | [] => Ret path
    | name :: rest' =>
        if (name =? EmptyString) || (name =? ".") then loop path rest'
        else if name =? ".." then loop (removelast path) rest'
        else if Str.has_char Str.NUL name then
          Raise (ValueError "embedded null byte")
        else
          match Posix.readlink fs (path ++ [name]) with
          | None => loop (path ++ [name]) rest'
          | Some target =>
              match depth with
              | 0 => Raise (RuntimeError "Symlink loop")
              | S d =>
                  joinrealpath d fs (if Posix.is_abs target then [] else path)
                    (Str.split "/" target ++ rest')
              end
          end
    end.

(** [p.resolve()] for an absolute path [p]. *)
Definition resolve (depth : nat) (fs : node) (p : list string)
  : outcome (list string) :=
  joinrealpath depth fs [] p.

(** [p.exists()] *)
Definition exists_ (fs : node) (p : list string) : bool :=
  match Posix.stat fs p with
  | Ok _ => true
  | Err _ => false
  end.

(** [p.is_dir()] *)
Definition is_dir (fs : node) (p : list string) : bool :=
  match Posix.stat fs p with
  | Ok (_, Dir _) => true
  | _ => false
  end.

(** [a.samefile(b)] *)
Definition samefile (fs : node) (a b : list string) : outcome bool :=
  match Posix.stat fs a with
  | Err e => Raise (OSError e (str a))
  | Ok (ia, _) =>
      match Posix.stat fs b with
      | Err e => Raise (OSError e (str b))
      | Ok (ib, _) => Ret (path_eqb ia ib)
      end
  end.

(** [q.mkdir(parents=False, exist_ok=True)] *)
Definition mkdir_exist_ok (q : list string) : M node unit :=
  fun fs =>
    match Posix.mkdir fs q with
    | Ok fs' => (Ret tt, fs')
    | Err ENOENT => (Raise (OSError ENOENT (str q)), fs)
    | Err e =>
        if is_dir fs q then (Ret tt, fs) else (Raise (OSError e (str q)), fs)
    end.

(** [q.mkdir(parents=True, exist_ok=True)], by recursion on the parts of
    [q] from the last one. *)
Fixpoint mkdir_parents_rev (rq : list string) : M node unit :=
  fun fs =>
    let q := List.rev rq in
    match Posix.mkdir fs q with
    | Ok fs' => (Ret tt, fs')
    | Err ENOENT =>
        match rq with
        | [] => (Raise (OSError ENOENT (str q)), fs)
        | _ :: rparent =>
            (_ <- mkdir_parents_rev rparent ;; mkdir_exist_ok q) fs
        end
    | Err e =>
        if is_dir fs q then (Ret tt, fs) else (Raise (OSError e (str q)), fs)
    end.

Definition mkdir_parents (q : list string) : M node unit :=
  mkdir_parents_rev (List.rev q).

(** [q.write_bytes(data)] *)
Definition write_bytes (q : list string) (data : string) : M node unit :=
  fun fs =>
    match Posix.write fs q data with
    | Ok fs' => (Ret tt, fs')
    | Err e => (Raise (OSError e (str q)), fs)
    end.

(** [q.read_text(encoding='utf-8')] *)
Definition read_text (fs : node) (q : list string) : outcome string :=
  match Posix.read fs q with
  | Ok data =>
      if Utf8.valid data then Ret (Str.universal_newlines data)
      else Raise UnicodeDecodeError
  | Err e => Raise (OSError e (str q))
  end.

(** [os.listdir(p)] *)
Definition listdir (fs : node) (p : list string) : outcome (list string) :=
  match Posix.scandir fs p with
  | Ok es => Ret (map fst es)
  | Err e => Raise (OSError e (str p))
  end.

Fixpoint sequence {A : Type} (l : list (option (list A))) : option (list A) :=
  match l with
  | [] => Some []
  | None :: _ => None
  | Some x :: l' =>
      match sequence l' with
      | Some r => Some (x ++ r)
      | None => None
      end
  end.

(** [os.walk(top, topdown=True, followlinks=True)]: the triples
    [(dirname, subdirs, files)] in the order they are produced.  A
    directory that cannot be scanned is skipped.  [None] when the walk is
    more than [n] directories deep. *)
Fixpoint walk (n : nat) (fs : node) (top : list string)
  : option (list (list string * list string * list string)) :=
  match n with
  | 0 => None
  | S n' =>
      match Posix.scandir fs top with
      | Err _ => Some []
      | Ok es =>
          let names := map fst es in
          let dirs := filter (fun d => is_dir fs (top ++ [d])) names in
          let nondirs := filter (fun d => negb (is_dir fs (top ++ [d]))) names in
          match sequence (map (fun d => walk n' fs (top ++ [d])) dirs) with
          | Some below => Some ((top, dirs, nondirs) :: below)
          | None => None
          end
      end
  end.

End Fs.

(* ================================================================== *)
(** ** The class [FileTool] *)

Module FileTool.

Import Pathlib.

(** The attributes of an instance. *)
Record t : Type := { root_path : list string; current_dir : list string }.

(** What the methods act on: the file system and the instance. *)
Record world : Type := { disk : node; self : t }.

Definition on_disk {A : Type} (m : M node A) : M world A :=
  fun w =>
    let (r, fs') := m (disk w) in
    (r, {| disk := fs'; self := self w |}).

Definition set_current_dir (q : list string) : M world unit :=
  fun w =>
    (Ret tt,
     {| disk := disk w;
        self := {| root_path := root_path (self w); current_dir := q |} |}).

Definition nl : string := String Str.LF EmptyString.
Definition dquote : string := Str.of_bytes [34].

Definition denied : string := "访问被拒绝：路径超出根目录范围".

(** A dictionary with string keys, in insertion order. *)
Definition dict : Type := list (string * string).

(** The keys of the dictionary that [get_directory_tree] returns: the
    string ["error"], or a path relative to the root. *)
Inductive key : Type :=
| KStr (s : string)
| KPath (p : list string).

Definition key_eqb (a b : key) : bool :=
  match a, b with
  | KStr x, KStr y => x =? y
  | KPath p, KPath q => path_eqb p q
  | _, _ => false
  end.

(** [d[k] = v] *)
Fixpoint dict_set (k : key) (v : string) (d : list (key * string))
  : list (key * string) :=
  match d with
  | [] => [(k, v)]
  | (k', v') :: d' =>
      if key_eqb k' k then (k', v) :: d' else (k', v') :: dict_set k v d'
  end.

Section Methods.

(** The bound on the links that one [resolve()] expands. *)
Variable depth : nat.

(** [FileTool(root_path)], run in the working directory [cwd]. *)
Definition __init__ (cwd : list string) (root_path : string) (fs : node)
  : outcome t :=
  let p := Path root_path in
  match Fs.resolve depth fs (if is_absolute p then parts p else cwd ++ parts p) with
  | Ret root => Ret {| root_path := root; current_dir := root |}
  | Raise e => Raise e
  end.

(** The path that [_resolve_path] hands to [resolve()]. *)
Definition anchored (self : t) (target_path : PurePath) : list string :=
  if is_absolute target_path then
    let relative_part := relative_to_root target_path in
    joinpath (root_path self) relative_part
  else
    joinpath (current_dir self) target_path.

Definition _resolve_path (self : t) (fs : node) (location : string)
  : outcome (option (list string)) :=
  let target_path := Path location in
  match Fs.resolve depth fs (anchored self target_path) with
  | Raise e => Raise e
  | Ret resolved_path =>
      let is_within_root :=
        if in_parents (root_path self) resolved_path then Ret true
        else Fs.samefile fs (root_path self) resolved_path in
      match is_within_root with
      | Raise e => Raise e
      | Ret true => Ret (Some resolved_path)
      | Ret false => Ret None
      end
  end.

(** One round of the loop of [get_directory_tree]. *)
Definition tree_entry (self : t)
  (acc : outcome (list (key * string)))
  (item : list string * list string * list string)
  : outcome (list (key * string)) :=
  match acc with
  | Raise e => Raise e
  | Ret tree_result =>
      let '(dirname, subdirs, files) := item in
      match relative_to dirname (root_path self) with
      | Raise e => Raise e
      | Ret relative_path =>
          let file_list := Str.join nl files in
          let dir_list :=
            Str.join nl (map (fun d => (d ++ " (目录)")%string) subdirs) in
          Ret (dict_set (KPath relative_path)
                 (Str.strip (file_list ++ nl ++ dir_list)%string) tree_result)
      end
  end.

(** [None] when [os.walk] goes more than [fuel] directories deep. *)
Definition get_directory_tree (fuel : nat) (self : t) (fs : node)
  (directory : string) : option (outcome (list (key * string))) :=
  match _resolve_path self fs directory with
  | Raise e => Some (Raise e)
  | Ret None => Some (Ret [(KStr "error", "路径超出根目录范围")])
  | Ret (Some resolved_dir) =>
      if negb (Fs.exists_ fs resolved_dir) then
        Some (Ret [(KStr "error", ("目录不存在: " ++ directory)%string)])
      else if negb (Fs.is_dir fs resolved_dir) then
        Some (Ret [(KStr "error", (directory ++ " 不是一个目录")%string)])
      else
        match Fs.walk fuel fs resolved_dir with
        | None => None
        | Some items => Some (fold_left (tree_entry self) items (Ret []))
        end
  end.

Definition exists_ (self : t) (fs : node) (path : string) : outcome string :=
  match _resolve_path self fs path with
  | Raise e => Raise e
  | Ret None => Ret denied
  | Ret (Some resolved_path) =>
      Ret (if Fs.exists_ fs resolved_path then "文件/目录存在"
           else "文件/目录不存在")
  end.

Definition get_current_directory (self : t) : outcome string :=
  match relative_to (current_dir self) (root_path self) with
  | Raise e => Raise e
  | Ret relative_path => Ret ("/" ++ str_rel relative_path)%string
  end.

Definition change_directory (location : string) : M world string :=
  resolved_path <-
    reading (fun w => _resolve_path (self w) (disk w) location) ;;
  match resolved_path with
  | None => ret denied
  | Some resolved_path =>
      fun w =>
        if negb (Fs.exists_ (disk w) resolved_path) then
          ret ("切换失败：目录不存在 - " ++ location)%string w
        else if negb (Fs.is_dir (disk w) resolved_path) then
          ret ("切换失败：" ++ location ++ " 不是一个目录")%string w
        else
          (_ <- set_current_dir resolved_path ;;
           here <- reading (fun w' => get_current_directory (self w')) ;;
           ret ("已切换到: " ++ here)%string) w
  end.

Definition list_contents (self : t) (fs : node) : outcome dict :=
  if negb (Fs.exists_ fs (current_dir self)) then
    Ret [("error", "当前目录不存在")]
  else if negb (Fs.is_dir fs (current_dir self)) then
    Ret [("error", "当前路径不是一个目录")]
  else
    match Fs.listdir fs (current_dir self) with
    | Raise e => Raise e
    | Ret items =>
        let contents :=
          map (fun item =>
                 let item_path := current_dir self ++ [item] in
                 let item_type :=
                   if Fs.is_dir fs item_path then "目录" else "文件" in
                 (dquote ++ item ++ dquote ++ " (" ++ item_type ++ ")")%string)
              items in
        Ret [("files", Str.join nl contents);
             ("count", Str.of_nat (List.length contents))]
    end.

Definition make_directory (directory : string) : M world string :=
  resolved_path <-
    reading (fun w => _resolve_path (self w) (disk w) directory) ;;
  match resolved_path with
  | None => ret denied
  | Some resolved_path =>
      try_except
        (_ <- on_disk (Fs.mkdir_parents resolved_path) ;;
         relative_path <-
           reading (fun w => relative_to resolved_path (root_path (self w))) ;;
         ret ("已创建目录: " ++ str_rel relative_path)%string)
        (fun e =>
           relative_path <-
             reading (fun w => relative_to resolved_path (root_path (self w))) ;;
           ret ("创建目录失败: " ++ str_rel relative_path ++ "，错误: "
                  ++ str_exn e)%string)
  end.

Definition write_file (file_path content : string) : M world string :=
  resolved_path <-
    reading (fun w => _resolve_path (self w) (disk w) file_path) ;;
  match resolved_path with
  | None => ret denied
  | Some resolved_path =>
      try_except
        (_ <- on_disk (Fs.mkdir_parents (removelast resolved_path)) ;;
         (* [content.encode('utf-8')]: a [str] is its UTF-8 bytes *)
         let content_bytes := content in
         _ <- on_disk (Fs.write_bytes resolved_path content_bytes) ;;
         relative_path <-
           reading (fun w => relative_to resolved_path (root_path (self w))) ;;
         ret ("已写入文件: " ++ str_rel relative_path ++ nl ++ "大小: "
                ++ Str.of_nat (String.length content_bytes) ++ " 字节")%string)
        (fun e => ret ("写入文件失败: " ++ str_exn e)%string)
  end.

Definition read_file (self : t) (fs : node) (file_path : string)
  : outcome dict :=
  match _resolve_path self fs file_path with
  | Raise e => Raise e
  | Ret resolved_path =>
      let relative_path :=
        match resolved_path with
        | Some q =>
            match relative_to q (root_path self) with
            | Ret r => Ret ("/" ++ str_rel r)%string
            | Raise e => Raise e
            end
        | None => Ret file_path
        end in
      match relative_path with
      | Raise e => Raise e
      | Ret relative_path =>
          match resolved_path with
          | None =>
              Ret [("state", "error"); ("reason", denied);
                   ("path", relative_path)]
          | Some resolved_path =>
              if Fs.is_dir fs resolved_path then
                Ret [("state", "error"); ("reason", "无法读取目录内容");
                     ("path", relative_path)]
              else if negb (Fs.exists_ fs resolved_path) then
                Ret [("state", "error"); ("reason", "文件不存在");
                     ("path", relative_path)]
              else
                match Fs.read_text fs resolved_path with
                | Ret content =>
                    Ret [("state", "ok"); ("path", relative_path);
                         ("file_content", content)]
                | Raise e =>
                    Ret [("state", "error"); ("path", relative_path);
                         ("reason", ("读取文件失败: " ++ str_exn e)%string)]
                end
          end
      end
  end.

End Methods.

End FileTool.

(* ================================================================== *)
(** ** Notions of the specification *)

Import Pathlib.

(** [r] is a proper ancestor of [q]. *)
Definition proper_ancestor (r q : list string) : Prop :=
  exists s, s <> [] /\ q = r ++ s.

(** Containment: [q] is [r] or lies beneath it. *)
Definition within (r q : list string) : Prop :=
  q = r \/ proper_ancestor r q.

(** A part that names an entry: not empty, not a dot or two, no NUL. *)
Definition is_name (x : string) : bool :=
  negb (x =? EmptyString) && negb (x =? ".") && negb (x =? "..")
  && negb (Str.has_char Str.NUL x).

Fixpoint nonempty_prefixes (q : list string) : list (list string) :=
  match q with
  | [] => []
  | x :: q' => [x] :: map (cons x) (nonempty_prefixes q')
  end.

Definition no_link_at (fs : node) (p : list string) : bool :=
  match Posix.readlink fs p with
  | None => true
  | Some _ => false
  end.

(** A real path in canonical form: made of names, with no symbolic link
    at it or on the way to it. *)
Definition canonical (fs : node) (q : list string) : bool :=
  forallb is_name q && forallb (no_link_at fs) (nonempty_prefixes q).

Definition canonicalP (fs : node) (q : list string) : Prop :=
  Forall (fun x => is_name x = true) q /\
  forall p s, p <> [] -> q = p ++ s -> Posix.readlink fs p = None.

(** Two file systems with the same symbolic links. *)
Definition same_links (fs fs' : node) : Prop :=
  forall p, Posix.readlink fs' p = Posix.readlink fs p.

(** A node without anything beneath it that is not a link. *)
Definition leaf (v : node) : Prop :=
  v = Dir [] \/ exists d, v = File d.

(** The calls of the public methods. *)
Inductive call : Type :=
| Exists (path : string)
| GetCurrentDirectory
| ChangeDirectory (location : string)
| ListContents
| MakeDirectory (directory : string)
| WriteFile (file_path content : string)
| ReadFile (file_path : string)
| GetDirectoryTree (fuel : nat) (directory : string).

(** The world after a call; the methods that return a value and change
    nothing leave it as it is. *)
Definition after (depth : nat) (c : call) (w : FileTool.world) : FileTool.world :=
  match c with
  | ChangeDirectory location => snd (FileTool.change_directory depth location w)
  | MakeDirectory directory => snd (FileTool.make_directory depth directory w)
  | WriteFile file_path content =>
      snd (FileTool.write_file depth file_path content w)
  | Exists _ | GetCurrentDirectory | ListContents | ReadFile _
  | GetDirectoryTree _ _ => w
  end.

Definition run (depth : nat) (cs : list call) (w : FileTool.world)
  : FileTool.world :=
  fold_left (fun w c => after depth c w) cs w.

(** The value of the key [k] in a dictionary. *)
Fixpoint dict_get (k : string) (d : FileTool.dict) : option string :=
  match d with
  | [] => None
  | (k', v) :: d' => if k' =? k then Some v else dict_get k d'
  end.


(** A file system for the examples: the sandbox [/sandbox] holds a link
    [out] to [/etc], which is outside. *)
Module Sample.

Definition fs : node :=
  Dir [("sandbox",
        Dir [("a", Dir [("b", Dir [("f.txt", File "hello")]);
                        ("a", Dir []);
                        ("peek", Link "/etc")]);
             ("out", Link "/etc");
             ("up", Link "..");
             ("g.txt", File "x")]);
       ("etc", Dir [("passwd", File "root:x")])].

Definition tool : FileTool.t :=
  {| FileTool.root_path := ["sandbox"]; FileTool.current_dir := ["sandbox"] |}.

Definition world : FileTool.world :=
  {| FileTool.disk := fs; FileTool.self := tool |}.

(** The world after [change_directory("a")]. *)
Definition in_a : FileTool.world :=
  snd (FileTool.change_directory 8 "a" world).

(** A text of one carriage return, and the world after it is written. *)
Definition cr : string := String Str.CR EmptyString.

Definition written : FileTool.world :=
  snd (FileTool.write_file 8 "new.txt" cr world).

End Sample.

(** What [os.lstat] tells of a node: its type, with the content of a file
    and the target of a link, but not the entries of a directory. *)
Inductive kind : Type :=
| IsFile (data : string)
| IsLink (target : string)
| IsDir.

Definition kind_of (nd : node) : kind :=
  match nd with
  | File d => IsFile d
  | Link t => IsLink t
  | Dir _ => IsDir
  end.

(** Everything that is in [fs] is still in [fs'], with the same type,
    content and target. *)
Definition keeps (fs fs' : node) : Prop :=
  forall x nd,
    Posix.lookup fs x = Ok nd ->
    exists nd', Posix.lookup fs' x = Ok nd' /\ kind_of nd' = kind_of nd.

(** The same, but for the file at [q], which may have a new content. *)
Definition keeps_but (q : list string) (fs fs' : node) : Prop :=
  forall x nd,
    x <> q -> Posix.lookup fs x = Ok nd ->
    exists nd', Posix.lookup fs' x = Ok nd' /\ kind_of nd' = kind_of nd.


(* ================================================================== *)
(** ** Lists and paths *)

Lemma path_eqb_eq (a b : list string) : path_eqb a b = true <-> a = b.
Proof.
  revert b; induction a as [|x a IH]; intros [|y b]; simpl; split;
    try congruence; try reflexivity.
  - intros H. apply andb_true_iff in H as [H1 H2].
    apply String.eqb_eq in H1. apply IH in H2. congruence.
  - intros H. injection H as -> ->.
    apply andb_true_iff; split; [apply String.eqb_refl | now apply IH].
Qed.

Lemma path_eqb_refl (a : list string) : path_eqb a a = true.
Proof. now apply path_eqb_eq. Qed.

Lemma In_proper_prefixes (p q : list string) :
  In p (proper_prefixes q) <-> proper_ancestor p q.
Proof.
  unfold proper_ancestor. revert p; induction q as [|x q IH]; intros p; simpl.
  - split; [tauto|]. intros (s & Hs & H).
    destruct p; destruct s; simpl in H; congruence.
  - split.
    + intros [<- | H].
      * exists (x :: q); split; [discriminate | reflexivity].
      * apply in_map_iff in H as (p' & <- & H). apply IH in H as (s & Hs & ->).
        exists s; split; [assumption | reflexivity].
    + intros (s & Hs & H). destruct p as [|y p]; [now left | right].
      simpl in H. injection H as <- ->.
      apply in_map_iff. exists p; split; [reflexivity|].
      apply IH. now exists s.
Qed.

Lemma in_parents_iff (r q : list string) :
  in_parents r q = true <-> proper_ancestor r q.
Proof.
  unfold in_parents, parents. rewrite existsb_exists. split.
  - intros (x & Hx & E). apply path_eqb_eq in E as <-.
    apply In_proper_prefixes. now apply in_rev.
  - intros H. exists r; split; [|apply path_eqb_refl].
    apply in_rev. rewrite rev_involutive. now apply In_proper_prefixes.
Qed.

Lemma In_nonempty_prefixes (p q : list string) :
  In p (nonempty_prefixes q) <-> p <> [] /\ exists s, q = p ++ s.
Proof.
  revert p; induction q as [|x q IH]; intros p; simpl.
  - split; [tauto|]. intros (Hp & s & H).
    destruct p; [congruence | discriminate].
  - split.
    + intros [<- | H].
      * split; [discriminate | now exists q].
      * apply in_map_iff in H as (p' & <- & H).
        apply IH in H as (_ & s & ->).
        split; [discriminate | now exists s].
    + intros (Hp & s & H). destruct p as [|y p]; [congruence|].
      simpl in H. injection H as <- ->.
      destruct p as [|z p]; [now left | right].
      apply in_map_iff. exists (z :: p); split; [reflexivity|].
      apply IH. split; [discriminate | now exists s].
Qed.

Lemma canonical_iff (fs : node) (q : list string) :
  canonical fs q = true <-> canonicalP fs q.
Proof.
  unfold canonical, canonicalP.
  rewrite andb_true_iff, !forallb_forall, Forall_forall. split.
  - intros [H1 H2]; split; [assumption|]. intros p s Hp ->.
    specialize (H2 p). unfold no_link_at in H2.
    destruct (Posix.readlink fs p); [|reflexivity].
    discriminate H2. apply In_nonempty_prefixes; split; [assumption | now exists s].
  - intros [H1 H2]; split; [assumption|]. intros p Hp.
    apply In_nonempty_prefixes in Hp as (Hp & s & ->).
    unfold no_link_at. now rewrite (H2 p s).
Qed.

Lemma canonicalP_nil (fs : node) : canonicalP fs [].
Proof.
  split; [constructor|]. intros p s Hp H.
  destruct p; [congruence | discriminate].
Qed.

Lemma canonicalP_prefix (fs : node) (p s : list string) :
  canonicalP fs (p ++ s) -> canonicalP fs p.
Proof.
  intros [H1 H2]; split.
  - apply Forall_app in H1. tauto.
  - intros p' s' Hp ->. apply (H2 p' (s' ++ s) Hp). now rewrite app_assoc.
Qed.

Lemma canonicalP_removelast (fs : node) (q : list string) :
  canonicalP fs q -> canonicalP fs (removelast q).
Proof.
  pattern q; apply rev_ind.
  - intros H; exact H.
  - intros x l _ H. rewrite removelast_last.
    eapply canonicalP_prefix; eassumption.
Qed.

Lemma canonicalP_snoc (fs : node) (q : list string) (x : string) :
  canonicalP fs q -> is_name x = true ->
  Posix.readlink fs (q ++ [x]) = None -> canonicalP fs (q ++ [x]).
Proof.
  intros [H1 H2] Hx Hl; split.
  - apply Forall_app; split; [assumption | now constructor].
  - intros p s Hp. revert Hp. pattern s; apply rev_ind.
    + intros Hp E. rewrite app_nil_r in E. now subst p.
    + intros y s' _ Hp E. rewrite app_assoc in E.
      apply app_inj_tail in E as [E _]. now apply (H2 p s').
Qed.

Lemma canonicalP_step (fs : node) (pre : list string) (x : string)
  (suf : list string) :
  canonicalP fs (pre ++ x :: suf) ->
  is_name x = true /\ Posix.readlink fs (pre ++ [x]) = None.
Proof.
  intros [H1 H2]; split.
  - apply Forall_app in H1 as [_ H1]. now inversion H1.
  - apply (H2 (pre ++ [x]) suf).
    + destruct pre; discriminate.
    + now rewrite <- app_assoc.
Qed.

Lemma canonicalP_same_links (fs fs' : node) (q : list string) :
  same_links fs fs' -> canonicalP fs q -> canonicalP fs' q.
Proof.
  intros L [H1 H2]; split; [assumption|].
  intros p s Hp E. rewrite L. now apply (H2 p s).
Qed.

Lemma same_links_refl (fs : node) : same_links fs fs.
Proof. intros p; reflexivity. Qed.

Lemma same_links_trans (a b c : node) :
  same_links a b -> same_links b c -> same_links a c.
Proof. intros H1 H2 p. now rewrite H2, H1. Qed.

Lemma is_name_inv (x : string) :
  is_name x = true ->
  (x =? EmptyString) || (x =? ".") = false /\ (x =? "..") = false /\
  Str.has_char Str.NUL x = false.
Proof.
  unfold is_name. intros H.
  repeat (apply andb_true_iff in H as [H ?]).
  repeat match goal with
         | K : negb _ = true |- _ => apply negb_true_iff in K; rewrite K
         end.
  auto.
Qed.

Lemma is_name_intro (x : string) :
  (x =? EmptyString) || (x =? ".") = false -> (x =? "..") = false ->
  Str.has_char Str.NUL x = false -> is_name x = true.
Proof.
  unfold is_name. intros H1 H2 H3.
  apply orb_false_iff in H1 as [H0 H1]. now rewrite H0, H1, H2, H3.
Qed.

(* ================================================================== *)
(** ** [Path.resolve] *)

Section Resolve.

Variable fs : node.

Lemma joinrealpath_nil (d : nat) (path : list string) :
  Fs.joinrealpath d fs path [] = Ret path.
Proof. destruct d; reflexivity. Qed.

Lemma joinrealpath_cons (d : nat) (path : list string) (name : string)
  (rest : list string) :
  Fs.joinrealpath d fs path (name :: rest) =
  if (name =? EmptyString) || (name =? ".") then Fs.joinrealpath d fs path rest
  else if name =? ".." then Fs.joinrealpath d fs (removelast path) rest
  else if Str.has_char Str.NUL name then Raise (ValueError "embedded null byte")
  else
    match Posix.readlink fs (path ++ [name]) with
    | None => Fs.joinrealpath d fs (path ++ [name]) rest
    | Some target =>
        match d with
        | 0 => Raise (RuntimeError "Symlink loop")
        | S d' =>
            Fs.joinrealpath d' fs (if Posix.is_abs target then [] else path)
              (Str.split "/" target ++ rest)
        end
    end.
Proof. destruct d; reflexivity. Qed.

(** What the walk returns is canonical when it starts from a canonical
    path. *)
Lemma joinrealpath_canonical (d : nat) :
  forall rest path q,
    canonicalP fs path -> Fs.joinrealpath d fs path rest = Ret q ->
    canonicalP fs q.
Proof.
  induction d as [|d IHd]; induction rest as [|name rest IHr];
    intros path q Hc H;
    rewrite ?joinrealpath_nil in H; try (injection H as <-; assumption);
    rewrite joinrealpath_cons in H;
    (destruct ((name =? EmptyString) || (name =? ".")) eqn:E1;
     [eapply IHr; eassumption|]);
    (destruct (name =? "..") eqn:E2;
     [eapply IHr; [apply canonicalP_removelast|]; eassumption|]);
    (destruct (Str.has_char Str.NUL name) eqn:E3; [discriminate|]);
    destruct (Posix.readlink fs (path ++ [name])) as [target|] eqn:E4;
    try discriminate;
    try (eapply IHr; [|eassumption];
         apply canonicalP_snoc; auto using is_name_intro).
  eapply IHd; [|eassumption].
  destruct (Posix.is_abs target); [apply canonicalP_nil | assumption].
Qed.

(** Walking over the rest of a canonical path only appends it. *)
Lemma joinrealpath_through (d : nat) :
  forall mid pre rest,
    canonicalP fs (pre ++ mid) ->
    Fs.joinrealpath d fs pre (mid ++ rest) =
    Fs.joinrealpath d fs (pre ++ mid) rest.
Proof.
  induction mid as [|x mid IH]; intros pre rest Hc.
  - now rewrite app_nil_r.
  - destruct (canonicalP_step _ _ _ _ Hc) as [Hx Hl].
    destruct (is_name_inv _ Hx) as (E1 & E2 & E3).
    simpl. rewrite joinrealpath_cons, E1, E2, E3, Hl.
    replace (pre ++ x :: mid) with ((pre ++ [x]) ++ mid) in *
      by now rewrite <- app_assoc.
    now apply IH.
Qed.

Lemma resolve_canonical (d : nat) (p q : list string) :
  Fs.resolve d fs p = Ret q -> canonicalP fs q.
Proof. apply joinrealpath_canonical, canonicalP_nil. Qed.

Lemma resolve_fixed (d : nat) (q : list string) :
  canonicalP fs q -> Fs.resolve d fs q = Ret q.
Proof.
  intros Hc. unfold Fs.resolve.
  rewrite <- (app_nil_r q) at 1.
  rewrite joinrealpath_through by assumption.
  apply joinrealpath_nil.
Qed.

End Resolve.

Lemma joinrealpath_same_links (fs fs' : node) (d : nat) :
  same_links fs fs' ->
  forall rest path,
    Fs.joinrealpath d fs' path rest = Fs.joinrealpath d fs path rest.
Proof.
  intros L. induction d as [|d IHd]; induction rest as [|name rest IHr];
    intros path; rewrite ?joinrealpath_nil; try reflexivity;
    rewrite !joinrealpath_cons, L, !IHr;
    destruct (Posix.readlink fs (path ++ [name])); try reflexivity.
  now rewrite IHd.
Qed.

(* ================================================================== *)
(** ** Path walks of the kernel *)

Lemma lookup_app (fs : node) (a b : list string) :
  Posix.lookup fs (a ++ b) =
  match Posix.lookup fs a with
  | Ok c => Posix.lookup c b
  | Err e => Err e
  end.
Proof.
  revert fs; induction a as [|x a IH]; intros fs; simpl; [reflexivity|].
  destruct fs as [| |es]; try reflexivity.
  destruct (Posix.assoc x es); [apply IH | reflexivity].
Qed.

Lemma lookup_snoc (fs : node) (a : list string) (x : string) :
  Posix.lookup fs (a ++ [x]) =
  match Posix.lookup fs a with
  | Ok (Dir es) =>
      match Posix.assoc x es with
      | Some c => Ok c
      | None => Err ENOENT
      end
  | Ok _ => Err ENOTDIR
  | Err e => Err e
  end.
Proof.
  rewrite lookup_app. destruct (Posix.lookup fs a) as [[| |es]|]; simpl;
    try reflexivity.
  all: destruct (Posix.assoc x es); reflexivity.
Qed.

Section Namei.

Variable fs : node.

Lemma namei_nil (n : nat) (creat : bool) (cur : list string) :
  Posix.namei n creat fs cur [] = Ok cur.
Proof. destruct n; reflexivity. Qed.

Lemma namei_cons (n : nat) (creat : bool) (cur : list string) (name : string)
  (rest : list string) :
  Posix.namei n creat fs cur (name :: rest) =
  match Posix.lookup fs cur with
  | Ok (Dir es) =>
      if name =? ".." then Posix.namei n creat fs (removelast cur) rest
      else
        match Posix.assoc name es with
        | Some (Link target) =>
            match n with
            | 0 => Err ELOOP
            | S n' =>
                Posix.namei n' creat fs
                  (if Posix.is_abs target then [] else cur)
                  (Posix.segments target ++ rest)
            end
        | Some _ => Posix.namei n creat fs (cur ++ [name]) rest
        | None =>
            if creat && Posix.is_nil rest then Ok (cur ++ [name])
            else Err ENOENT
        end
  | Ok _ => Err ENOTDIR
  | Err e => Err e
  end.
Proof. destruct n; reflexivity. Qed.

(** On a canonical path the walk can only return the path itself. *)
Lemma namei_canonical (n : nat) (creat : bool) :
  forall suf pre t,
    canonicalP fs (pre ++ suf) ->
    Posix.namei n creat fs pre suf = Ok t -> t = pre ++ suf.
Proof.
  induction suf as [|x suf IH]; intros pre t Hc H.
  - rewrite namei_nil in H. injection H as <-. now rewrite app_nil_r.
  - destruct (canonicalP_step _ _ _ _ Hc) as [Hx Hl].
    destruct (is_name_inv _ Hx) as (_ & E2 & _).
    rewrite namei_cons, E2 in H.
    unfold Posix.readlink in Hl. rewrite lookup_snoc in Hl.
    replace (pre ++ x :: suf) with ((pre ++ [x]) ++ suf) in *
      by now rewrite <- app_assoc.
    destruct (Posix.lookup fs pre) as [[| |es]|]; try discriminate.
    destruct (Posix.assoc x es) as [[| |]|]; try discriminate;
      try (now apply IH).
    destruct (creat && Posix.is_nil suf) eqn:E; [|discriminate].
    injection H as <-. apply andb_true_iff in E as [_ E].
    destruct suf; [now rewrite app_nil_r | discriminate].
Qed.

(** A canonical path that exists is found by the walk. *)
Lemma namei_found (n : nat) (creat : bool) :
  forall suf pre nd,
    canonicalP fs (pre ++ suf) ->
    Posix.lookup fs (pre ++ suf) = Ok nd ->
    Posix.namei n creat fs pre suf = Ok (pre ++ suf).
Proof.
  induction suf as [|x suf IH]; intros pre nd Hc H.
  - rewrite namei_nil. now rewrite app_nil_r.
  - destruct (canonicalP_step _ _ _ _ Hc) as [Hx Hl].
    destruct (is_name_inv _ Hx) as (_ & E2 & _).
    rewrite namei_cons, E2.
    unfold Posix.readlink in Hl. rewrite lookup_snoc in Hl.
    replace (pre ++ x :: suf) with ((pre ++ [x]) ++ suf) in *
      by now rewrite <- app_assoc.
    rewrite lookup_app, lookup_snoc in H.
    destruct (Posix.lookup fs pre) as [[| |es]|] eqn:E1; try discriminate.
    destruct (Posix.assoc x es) as [[| |]|] eqn:E3; try discriminate;
      (apply (IH _ nd); [assumption|]);
      now rewrite lookup_app, lookup_snoc, E1, E3.
Qed.

Lemma stat_canonical (q i : list string) (nd : node) :
  canonicalP fs q -> Posix.stat fs q = Ok (i, nd) ->
  i = q /\ Posix.lookup fs q = Ok nd.
Proof.
  unfold Posix.stat. intros Hc H.
  destruct (Posix.namei Posix.MAXSYMLINKS false fs [] q) as [t|] eqn:E;
    [|discriminate].
  apply namei_canonical in E; [|assumption]. simpl in E. subst t.
  destruct (Posix.lookup fs q); [|discriminate].
  injection H as <- <-. auto.
Qed.

Lemma stat_found (q : list string) (nd : node) :
  canonicalP fs q -> Posix.lookup fs q = Ok nd ->
  Posix.stat fs q = Ok (q, nd).
Proof.
  unfold Posix.stat. intros Hc H.
  rewrite (namei_found _ _ q [] nd Hc H). simpl. now rewrite H.
Qed.

End Namei.

(* ================================================================== *)
(** ** Path resolution of the tool *)

Section ResolvePath.

Variable depth : nat.


Lemma samefile_canonical (fs : node) (a b : list string) :
  canonicalP fs a -> canonicalP fs b ->
  Fs.samefile fs a b = Ret true -> b = a.
Proof.
  unfold Fs.samefile. intros Ha Hb H.
  destruct (Posix.stat fs a) as [[ia na]|] eqn:Ea; [|discriminate].
  destruct (Posix.stat fs b) as [[ib nb]|] eqn:Eb; [|discriminate].
  injection H as H. apply path_eqb_eq in H.
  apply stat_canonical in Ea as [-> _]; [|assumption].
  apply stat_canonical in Eb as [-> _]; [|assumption].
  congruence.
Qed.

Lemma resolve_path_inv (tool : FileTool.t) (fs : node) (p : string)
  (q : list string) :
  FileTool._resolve_path depth tool fs p = Ret (Some q) ->
  Fs.resolve depth fs (FileTool.anchored tool (Path p)) = Ret q /\
  (in_parents (FileTool.root_path tool) q = true \/
   Fs.samefile fs (FileTool.root_path tool) q = Ret true).
Proof.
  unfold FileTool._resolve_path. intros H.
  destruct (Fs.resolve depth fs _) as [r|]; [|discriminate].
  destruct (in_parents (FileTool.root_path tool) r) eqn:P.
  - injection H as <-. auto.
  - destruct (Fs.samefile fs (FileTool.root_path tool) r) as [[|]|] eqn:S;
      try discriminate.
    injection H as <-. auto.
Qed.

Lemma resolve_path_sound (tool : FileTool.t) (fs : node) (p : string)
  (q : list string) :
  canonicalP fs (FileTool.root_path tool) ->
  FileTool._resolve_path depth tool fs p = Ret (Some q) ->
  within (FileTool.root_path tool) q /\ canonicalP fs q.
Proof.
  intros Hr H. apply resolve_path_inv in H as [R C].
  assert (Hq : canonicalP fs q) by (eapply resolve_canonical; eassumption).
  split; [|assumption]. destruct C as [C|C].
  - right. now apply in_parents_iff.
  - left. eapply samefile_canonical; eassumption.
Qed.

(** Outside the root, [_resolve_path] gets to its answer only when the
    resolved path exists: otherwise [samefile] raises. *)
Lemma resolve_path_raises (tool : FileTool.t) (fs : node) (p : string)
  (q : list string) :
  Fs.resolve depth fs (FileTool.anchored tool (Path p)) = Ret q ->
  in_parents (FileTool.root_path tool) q = false ->
  Fs.exists_ fs q = false ->
  exists e f, FileTool._resolve_path depth tool fs p = Raise (OSError e f).
Proof.
  unfold FileTool._resolve_path, Fs.samefile, Fs.exists_. intros -> -> E.
  destruct (Posix.stat fs (FileTool.root_path tool)) as [[i nd]|e];
    [|now eexists; eexists].
  destruct (Posix.stat fs q) as [[j nd']|e]; [discriminate|].
  now eexists; eexists.
Qed.

End ResolvePath.

Example sample_init :
  FileTool.__init__ 8 ["sandbox"; "a"] "../up/sandbox" Sample.fs = Ret Sample.tool.
Proof. reflexivity. Qed.

Example sample_dotdot_denied :
  FileTool._resolve_path 8 Sample.tool Sample.fs "a/../../etc/passwd" = Ret None.
Proof. reflexivity. Qed.

Example sample_link_denied :
  FileTool._resolve_path 8 Sample.tool Sample.fs "out/passwd" = Ret None.
Proof. reflexivity. Qed.

Example sample_traversal_denied :
  FileTool.read_file 8 Sample.tool Sample.fs "../../../etc/passwd"
  = Ret [("state", "error"); ("reason", FileTool.denied);
         ("path", "../../../etc/passwd")].
Proof. reflexivity. Qed.

Example sample_make_write_read :
  FileTool.read_file 8 Sample.tool
    (FileTool.disk
       (run 8 [MakeDirectory "n/m"; WriteFile "n/m/f.txt" "hello"] Sample.world))
    "n/m/f.txt"
  = Ret [("state", "ok"); ("path", "/n/m/f.txt"); ("file_content", "hello")].
Proof. reflexivity. Qed.

Example sample_cursor :
  FileTool.get_current_directory
    (FileTool.self (run 8 [ChangeDirectory "a/b"] Sample.world))
  = Ret "/a/b".
Proof. reflexivity. Qed.

Example sample_absolute_reanchored :
  FileTool._resolve_path 8 Sample.tool Sample.fs "/etc/passwd"
  = Ret (Some ["sandbox"; "etc"; "passwd"]).
Proof. reflexivity. Qed.



(* ================================================================== *)
(** ** Changing the tree *)

Lemma assoc_set_same (name : string) (v : node) (es : list (string * node)) :
  Posix.assoc name (Posix.set_entry name v es) = Some v.
Proof.
  induction es as [|[k c] es IH]; simpl.
  - now rewrite String.eqb_refl.
  - destruct (k =? name) eqn:E; simpl.
    + now rewrite String.eqb_refl.
    + now rewrite E.
Qed.

Lemma assoc_set_other (x name : string) (v : node)
  (es : list (string * node)) :
  x <> name ->
  Posix.assoc x (Posix.set_entry name v es) = Posix.assoc x es.
Proof.
  intros N. induction es as [|[k c] es IH]; simpl.
  - destruct (String.eqb_spec name x); congruence.
  - destruct (String.eqb_spec k name) as [->|]; simpl.
    + destruct (String.eqb_spec name x); congruence.
    + now rewrite IH.
Qed.

Lemma put_lookup :
  forall p fs fs' v, Posix.put fs p v = Some fs' -> Posix.lookup fs' p = Ok v.
Proof.
  induction p as [|name p IH]; intros fs fs' v H; simpl in H.
  - now injection H as <-.
  - destruct fs as [| |es]; try discriminate.
    destruct p as [|y r].
    + injection H as <-. simpl. now rewrite assoc_set_same.
    + destruct (Posix.assoc name es) as [c|]; [|discriminate].
      destruct (Posix.put c (y :: r) v) as [c'|] eqn:E; [|discriminate].
      injection H as <-. simpl Posix.lookup at 1. rewrite assoc_set_same.
      now apply IH with (fs := c).
Qed.

Lemma leaf_no_link (v : node) (r : list string) :
  leaf v -> Posix.readlink v r = None.
Proof.
  intros [->|[d ->]]; destruct r; reflexivity.
Qed.

(** Setting a leaf where there was a file or nothing leaves the symbolic
    links as they were. *)
Lemma put_same_links :
  forall p fs fs' v,
    Posix.put fs p v = Some fs' -> leaf v ->
    (Posix.lookup fs p = Err ENOENT \/ exists d, Posix.lookup fs p = Ok (File d)) ->
    same_links fs fs'.
Proof.
  induction p as [|name p IH]; intros fs fs' v H Lv Old q; simpl in H.
  - injection H as <-. destruct Old as [Old|[d Old]]; simpl in Old;
      [discriminate|]. injection Old as ->.
    rewrite leaf_no_link by assumption.
    symmetry. apply leaf_no_link. right. now exists d.
  - destruct fs as [| |es]; try discriminate.
    destruct p as [|y r].
    + injection H as <-. destruct q as [|x q]; [reflexivity|].
      unfold Posix.readlink. simpl.
      destruct (String.eqb_spec x name) as [->|N].
      * rewrite assoc_set_same. simpl in Old.
        fold (Posix.readlink v q). rewrite leaf_no_link by assumption.
        destruct (Posix.assoc name es) as [c|]; [|reflexivity].
        destruct Old as [Old|[d Old]]; [discriminate|]. injection Old as ->.
        fold (Posix.readlink (File d) q). symmetry. apply leaf_no_link.
        right. now exists d.
      * now rewrite assoc_set_other.
    + destruct (Posix.assoc name es) as [c|] eqn:A; [|discriminate].
      destruct (Posix.put c (y :: r) v) as [c'|] eqn:E; [|discriminate].
      injection H as <-. destruct q as [|x q]; [reflexivity|].
      unfold Posix.readlink. simpl Posix.lookup.
      destruct (String.eqb_spec x name) as [->|N].
      * rewrite assoc_set_same, A.
        apply (IH c c' v E Lv).
        simpl in Old |- *. now rewrite A in Old.
      * now rewrite assoc_set_other.
Qed.

Lemma posix_mkdir_same_links (fs fs' : node) (q : list string) :
  Posix.mkdir fs q = Ok fs' -> same_links fs fs'.
Proof.
  unfold Posix.mkdir. intros H. destruct q as [|x q]; [discriminate|].
  destruct (Posix.namei _ _ _ _ _) as [d|]; [|discriminate].
  destruct (Posix.lookup fs d) as [[| |es]|] eqn:L; try discriminate.
  destruct (_ =? ".."); [discriminate|].
  destruct (Posix.assoc _ es) eqn:A; [discriminate|].
  destruct (Posix.put _ _ _) as [t|] eqn:P; [|discriminate].
  injection H as <-. eapply put_same_links; [eassumption | now left |].
  left. now rewrite lookup_snoc, L, A.
Qed.

Lemma posix_write_same_links (fs fs' : node) (q : list string) (data : string) :
  Posix.write fs q data = Ok fs' -> same_links fs fs'.
Proof.
  unfold Posix.write. intros H.
  destruct (Posix.namei _ _ _ _ _) as [t|]; [|discriminate].
  destruct (Posix.lookup fs t) as [[d| |]|[]] eqn:L; try discriminate;
    (destruct (Posix.put _ _ _) as [u|] eqn:P; [|discriminate]);
    injection H as <-;
    (eapply put_same_links; [eassumption | right; now exists data |]).
  - right. now exists d.
  - now left.
Qed.

Lemma mkdir_exist_ok_same_links (q : list string) (fs : node) :
  same_links fs (snd (Fs.mkdir_exist_ok q fs)).
Proof.
  unfold Fs.mkdir_exist_ok.
  destruct (Posix.mkdir fs q) as [fs'|[]] eqn:E; simpl;
    try destruct (Fs.is_dir fs q); simpl;
    try apply same_links_refl.
  all: eapply posix_mkdir_same_links; eassumption.
Qed.

Lemma mkdir_parents_rev_same_links :
  forall rq fs, same_links fs (snd (Fs.mkdir_parents_rev rq fs)).
Proof.
  induction rq as [|x rq IH]; intros fs.
  - simpl. destruct (Fs.is_dir fs []); apply same_links_refl.
  - change (Fs.mkdir_parents_rev (x :: rq) fs) with
      (match Posix.mkdir fs (List.rev (x :: rq)) with
       | Ok fs' => (Ret tt, fs')
       | Err ENOENT =>
           (_ <- Fs.mkdir_parents_rev rq ;;
            Fs.mkdir_exist_ok (List.rev (x :: rq))) fs
       | Err e =>
           if Fs.is_dir fs (List.rev (x :: rq)) then (Ret tt, fs)
           else (Raise (OSError e (str (List.rev (x :: rq)))), fs)
       end).
    destruct (Posix.mkdir fs (List.rev (x :: rq))) as [fs'|[]] eqn:E;
      try (destruct (Fs.is_dir fs (List.rev (x :: rq)));
           apply same_links_refl).
    + eapply posix_mkdir_same_links; eassumption.
    + unfold bind. specialize (IH fs).
      destruct (Fs.mkdir_parents_rev rq fs) as [[[]|e] fs1]; simpl in *;
        [|assumption].
      eapply same_links_trans; [eassumption|].
      apply mkdir_exist_ok_same_links.
Qed.

Lemma mkdir_parents_same_links (q : list string) (fs : node) :
  same_links fs (snd (Fs.mkdir_parents q fs)).
Proof. apply mkdir_parents_rev_same_links. Qed.

Lemma write_bytes_same_links (q : list string) (data : string) (fs : node) :
  same_links fs (snd (Fs.write_bytes q data fs)).
Proof.
  unfold Fs.write_bytes. destruct (Posix.write fs q data) eqn:E; simpl.
  - eapply posix_write_same_links; eassumption.
  - apply same_links_refl.
Qed.

(* ================================================================== *)
(** ** The methods that change the world *)

Section Frames.

Import FileTool.

Variable depth : nat.

(** The world that [change_directory] leaves. *)
Lemma change_directory_world (location : string) (w : world) :
  snd (change_directory depth location w) =
  match _resolve_path depth (self w) (disk w) location with
  | Ret (Some q) =>
      if Fs.exists_ (disk w) q && Fs.is_dir (disk w) q then
        {| disk := disk w;
           self := {| root_path := root_path (self w); current_dir := q |} |}
      else w
  | _ => w
  end.
Proof.
  unfold change_directory, bind, reading.
  destruct (_resolve_path depth (self w) (disk w) location) as [[q|]|e];
    try reflexivity.
  destruct (Fs.exists_ (disk w) q); [|reflexivity].
  destruct (Fs.is_dir (disk w) q); [|reflexivity].
  simpl. destruct (get_current_directory _); reflexivity.
Qed.

(** What [change_directory] returns. *)
Lemma change_directory_value (location : string) (w : world) :
  fst (change_directory depth location w) =
  match _resolve_path depth (self w) (disk w) location with
  | Raise e => Raise e
  | Ret None => Ret denied
  | Ret (Some q) =>
      if negb (Fs.exists_ (disk w) q) then
        Ret ("切换失败：目录不存在 - " ++ location)%string
      else if negb (Fs.is_dir (disk w) q) then
        Ret ("切换失败：" ++ location ++ " 不是一个目录")%string
      else
        match get_current_directory
                {| root_path := root_path (self w); current_dir := q |} with
        | Ret here => Ret ("已切换到: " ++ here)%string
        | Raise e => Raise e
        end
  end.
Proof.
  unfold change_directory, bind, reading.
  destruct (_resolve_path depth (self w) (disk w) location) as [[q|]|e];
    try reflexivity.
  destruct (Fs.exists_ (disk w) q); [|reflexivity].
  destruct (Fs.is_dir (disk w) q); [|reflexivity].
  simpl. destruct (get_current_directory _); reflexivity.
Qed.

Lemma make_directory_world (directory : string) (w : world) :
  snd (make_directory depth directory w) =
  match _resolve_path depth (self w) (disk w) directory with
  | Ret (Some q) =>
      {| disk := snd (Fs.mkdir_parents q (disk w)); self := self w |}
  | _ => w
  end.
Proof.
  destruct w as [fs tool].
  unfold make_directory, bind, reading, try_except, on_disk, ret.
  cbv beta iota delta [self disk].
  destruct (_resolve_path depth tool fs directory) as [[q|]|e];
    try reflexivity.
  destruct (Fs.mkdir_parents q fs) as [[[]|e] fs1];
    cbv beta iota delta [self disk];
    destruct (relative_to q (root_path tool)) eqn:R;
    cbv beta iota delta [self disk]; rewrite ?R; reflexivity.
Qed.


Lemma make_directory_frame (directory : string) (w : world) :
  self (snd (make_directory depth directory w)) = self w /\
  same_links (disk w) (disk (snd (make_directory depth directory w))).
Proof.
  rewrite make_directory_world.
  destruct (_resolve_path depth (self w) (disk w) directory) as [[q|]|e];
    try (split; [reflexivity | apply same_links_refl]).
  split; [reflexivity | apply mkdir_parents_same_links].
Qed.







(** For an absolute input the cursor plays no part. *)
Lemma resolve_path_absolute (t1 t2 : t) (fs : node) (location : string) :
  is_absolute (Path location) = true ->
  root_path t1 = root_path t2 ->
  _resolve_path depth t1 fs location = _resolve_path depth t2 fs location.
Proof.
  intros A E. unfold _resolve_path, anchored. now rewrite A, E.
Qed.

End Frames.

(* ================================================================== *)
(** ** The claims *)

Import FileTool.





(** C6, as the code has it.  For an absolute input a second
    [change_directory] changes nothing: it leaves the world that the first
    one left. *)
Theorem C6_change_directory_absolute_idempotent (depth : nat)
  (location : string) (w : world) :
  is_absolute (Path location) = true ->
  snd (change_directory depth location (snd (change_directory depth location w)))
  = snd (change_directory depth location w).
Proof.
  intros A. rewrite (change_directory_world depth location w).
  destruct (_resolve_path depth (self w) (disk w) location) as [[q|]|e] eqn:R;
    try (rewrite change_directory_world, R; reflexivity).
  destruct (Fs.exists_ (disk w) q && Fs.is_dir (disk w) q) eqn:C;
    [|rewrite change_directory_world, R, C; reflexivity].
  rewrite change_directory_world. simpl disk. simpl self.
  rewrite (resolve_path_absolute depth
             {| root_path := root_path (self w); current_dir := q |}
             (self w) (disk w) location A eq_refl).
  now rewrite R, C.
Qed.

Lemma C6_witness :
  snd (change_directory 8 "/a/b" (snd (change_directory 8 "/a/b" Sample.world)))
  = snd (change_directory 8 "/a/b" Sample.world).
Proof.
  apply (C6_change_directory_absolute_idempotent 8 "/a/b" Sample.world).
  reflexivity.
Defined.

(** The claim C6 as it is written fails: ["a"] is a valid input at both
    calls, and the second call moves the cursor on. *)
Lemma C6_counterexample :
  fst (change_directory 8 "a" Sample.world) = Ret "已切换到: /a" /\
  fst (change_directory 8 "a" Sample.in_a) = Ret "已切换到: /a/a" /\
  current_dir (self Sample.in_a) = ["sandbox"; "a"] /\
  current_dir (self (snd (change_directory 8 "a" Sample.in_a)))
  = ["sandbox"; "a"; "a"] /\
  current_dir (self (snd (change_directory 8 "a" Sample.in_a)))
  <> current_dir (self Sample.in_a).
Proof.
  repeat split; try reflexivity. discriminate.
Qed.

Lemma strip_prefix_app (r s : list string) : strip_prefix r (r ++ s) = Some s.
Proof.
  induction r as [|x r IH]; simpl; [reflexivity|].
  now rewrite String.eqb_refl.
Qed.



(** C10. At the root [get_current_directory] returns ["/."]; beneath the
    root it returns ["/"] and the path from the root. *)
Theorem C10_get_current_directory (tool : t) :
  (current_dir tool = root_path tool ->
   get_current_directory tool = Ret "/.") /\
  (forall rest,
      rest <> [] -> current_dir tool = root_path tool ++ rest ->
      get_current_directory tool = Ret ("/" ++ Str.join "/" rest)%string).
Proof.
  unfold get_current_directory, relative_to. split.
  - intros ->. rewrite <- (app_nil_r (root_path tool)) at 2.
    now rewrite strip_prefix_app.
  - intros rest N ->. rewrite strip_prefix_app.
    destruct rest; [congruence | reflexivity].
Qed.

Lemma C10_witness :
  get_current_directory Sample.tool = Ret "/." /\
  get_current_directory
    {| root_path := ["sandbox"]; current_dir := ["sandbox"; "a"; "b"] |}
  = Ret "/a/b".
Proof.
  split.
  - apply (proj1 (C10_get_current_directory Sample.tool)). reflexivity.
  - apply (proj2 (C10_get_current_directory
                    {| root_path := ["sandbox"];
                       current_dir := ["sandbox"; "a"; "b"] |}) ["a"; "b"]);
      [discriminate | reflexivity].
Defined.

(** C4. [exists] on a path above the root that names nothing does not
    return the denial: [samefile] inside [_resolve_path] raises
    [FileNotFoundError], and so do the other methods on that path. *)
Theorem C4_exists_raises :
  exists_ 8 Sample.tool Sample.fs "../nope" = Raise (OSError ENOENT "/nope") /\
  Fs.resolve 8 Sample.fs ["sandbox"; ".."; "nope"] = Ret ["nope"] /\
  ~ within ["sandbox"] ["nope"] /\
  read_file 8 Sample.tool Sample.fs "../nope" = Raise (OSError ENOENT "/nope") /\
  fst (change_directory 8 "../nope" Sample.world) = Raise (OSError ENOENT "/nope") /\
  exists_ 8 Sample.tool Sample.fs "../etc" = Ret denied.
Proof.
  repeat split. intros [H|(s & _ & H)]; discriminate.
Qed.

(** C3. [get_directory_tree] walks through a link that leaves the root:
    [a/peek] resolves outside the root, [_resolve_path] denies it, and yet
    the tree of [a] lists what is in it. *)
Theorem C3_tree_leaves_root :
  _resolve_path 8 Sample.tool Sample.fs "a/peek" = Ret None /\
  Fs.resolve 8 Sample.fs ["sandbox"; "a"; "peek"] = Ret ["etc"] /\
  get_directory_tree 8 4 Sample.tool Sample.fs "a"
  = Some (Ret [(KPath ["a"],
                ("b (目录)" ++ nl ++ "a (目录)" ++ nl ++ "peek (目录)")%string);
               (KPath ["a"; "b"], "f.txt");
               (KPath ["a"; "a"], EmptyString);
               (KPath ["a"; "peek"], "passwd")]).
Proof. repeat split. Qed.

(* ================================================================== *)
(** ** Writing and reading back *)

Lemma universal_newlines_id (c : string) :
  Str.has_char Str.CR c = false -> Str.universal_newlines c = c.
Proof.
  induction c as [|a c IH]; simpl; [reflexivity|].
  intros H. apply orb_false_iff in H as [H1 H2].
  rewrite H1. now rewrite IH.
Qed.

(** What a successful [write_file] has done. *)
Lemma write_file_success (depth : nat) (p c msg : string) (w w' : world) :
  write_file depth p c w = (Ret msg, w') ->
  String.prefix "已写入文件" msg = true ->
  exists q fs1 rel,
    _resolve_path depth (self w) (disk w) p = Ret (Some q) /\
    Fs.mkdir_parents (removelast q) (disk w) = (Ret tt, fs1) /\
    Fs.write_bytes q c fs1 = (Ret tt, disk w') /\
    relative_to q (root_path (self w)) = Ret rel /\
    self w' = self w.
Proof.
  destruct w as [fs tool].
  unfold write_file, bind, reading, try_except, on_disk, ret.
  cbv beta iota delta [self disk].
  destruct (_resolve_path depth tool fs p) as [[q|]|e];
    intros H P; try discriminate;
    [|injection H as <- <-; discriminate].
  destruct (Fs.mkdir_parents (removelast q) fs) as [[[]|e] fs1] eqn:M;
    cbv beta iota delta [self disk] in H;
    [|injection H as <- <-; discriminate].
  destruct (Fs.write_bytes q c fs1) as [[[]|e] fs2] eqn:W;
    cbv beta iota delta [self disk] in H;
    [|injection H as <- <-; discriminate].
  destruct (relative_to q (root_path tool)) as [rel|e] eqn:R;
    cbv beta iota delta [self disk] in H;
    [|injection H as <- <-; discriminate].
  injection H as <- <-. exists q, fs1, rel. simpl. auto.
Qed.

Lemma write_bytes_written (fs fs' : node) (q : list string) (c : string) :
  canonicalP fs q -> Fs.write_bytes q c fs = (Ret tt, fs') ->
  Posix.lookup fs' q = Ok (File c).
Proof.
  unfold Fs.write_bytes, Posix.write. intros Hc H.
  destruct (Posix.namei _ _ _ _ _) as [t|] eqn:N; [|discriminate].
  apply namei_canonical in N; [|assumption]. simpl in N. subst t.
  destruct (Posix.lookup fs q) as [[| |]|[]]; try discriminate;
    (destruct (Posix.put fs q (File c)) as [u|] eqn:P; [|discriminate]);
    injection H as <-; eapply put_lookup; eassumption.
Qed.

(** C5, as the code has it.  After [write_file(p, c)] has succeeded for
    UTF-8 text [c], whatever was at [p] before, [read_file(p)] returns [c]
    with each ["\r\n"] and each lone ["\r"] read as ["\n"]: exactly [c] when
    [c] has no carriage return. *)
Theorem C5_write_then_read (depth : nat) (p c msg : string) (w w' : world) :
  canonical (disk w) (root_path (self w)) = true ->
  Utf8.valid c = true ->
  write_file depth p c w = (Ret msg, w') ->
  String.prefix "已写入文件" msg = true ->
  exists shown,
    read_file depth (self w') (disk w') p
    = Ret [("state", "ok"); ("path", shown);
           ("file_content", Str.universal_newlines c)] /\
    (Str.has_char Str.CR c = false -> Str.universal_newlines c = c).
Proof.
  intros Hr V H P. apply canonical_iff in Hr.
  destruct (write_file_success _ _ _ _ _ _ H P)
    as (q & fs1 & rel & R & M & W & Rel & S).
  destruct (resolve_path_sound _ _ _ _ _ Hr R) as [_ Hq].
  assert (L1 : same_links (disk w) fs1).
  { pose proof (mkdir_parents_same_links (removelast q) (disk w)) as L.
    now rewrite M in L. }
  assert (L2 : same_links fs1 (disk w')).
  { pose proof (write_bytes_same_links q c fs1) as L. now rewrite W in L. }
  assert (L : same_links (disk w) (disk w'))
    by (eapply same_links_trans; eassumption).
  assert (Hq' : canonicalP (disk w') q)
    by (eapply canonicalP_same_links; eassumption).
  assert (Hr' : canonicalP (disk w') (root_path (self w)))
    by (eapply canonicalP_same_links; eassumption).
  assert (F : Posix.lookup (disk w') q = Ok (File c)).
  { eapply write_bytes_written; [|eassumption].
    eapply canonicalP_same_links; eassumption. }
  assert (St : Posix.stat (disk w') q = Ok (q, File c))
    by now apply stat_found.
  assert (R' : _resolve_path depth (self w) (disk w') p = Ret (Some q)).
  { destruct (resolve_path_inv _ _ _ _ _ R) as [E C].
    unfold _resolve_path, Fs.resolve.
    rewrite (joinrealpath_same_links (disk w) (disk w') depth L).
    unfold Fs.resolve in E. rewrite E.
    destruct (in_parents (root_path (self w)) q) eqn:I; [reflexivity|].
    destruct C as [C|C]; [discriminate|].
    apply samefile_canonical in C; [|assumption..]. subst q.
    unfold Fs.samefile. rewrite St. now rewrite path_eqb_refl. }
  exists ("/" ++ str_rel rel)%string. split; [|apply universal_newlines_id].
  rewrite S. unfold read_file. rewrite R', Rel.
  unfold Fs.is_dir, Fs.exists_, Fs.read_text, Posix.read.
  rewrite St. simpl. now rewrite V.
Qed.

Lemma C5_witness :
  exists shown,
    read_file 8 Sample.tool
      (disk (snd (write_file 8 "a/b/f.txt" "good bye" Sample.world)))
      "a/b/f.txt"
    = Ret [("state", "ok"); ("path", shown);
           ("file_content", Str.universal_newlines "good bye")] /\
    (Str.has_char Str.CR "good bye" = false ->
     Str.universal_newlines "good bye" = "good bye").
Proof.
  apply (C5_write_then_read 8 "a/b/f.txt" "good bye"
           (String.append "已写入文件: a/b/f.txt" (nl ++ "大小: 8 字节")%string)
           Sample.world
           (snd (write_file 8 "a/b/f.txt" "good bye" Sample.world)));
    reflexivity.
Defined.

(** The claim C5 as it is written fails: a carriage return that was
    written is read back as a line feed; and for the path of a directory
    in the sandbox the write fails and nothing can be read back. *)
Lemma C5_counterexample :
  Utf8.valid Sample.cr = true /\
  fst (write_file 8 "new.txt" Sample.cr Sample.world)
  = Ret ("已写入文件: new.txt" ++ nl ++ "大小: 1 字节")%string /\
  read_file 8 (self Sample.written) (disk Sample.written) "new.txt"
  = Ret [("state", "ok"); ("path", "/new.txt");
         ("file_content", String Str.LF EmptyString)] /\
  String Str.LF EmptyString <> Sample.cr /\
  write_file 8 "a" "x" Sample.world
  = (Ret "写入文件失败: [Errno 21] Is a directory: '/sandbox/a'", Sample.world) /\
  read_file 8 Sample.tool Sample.fs "a"
  = Ret [("state", "error"); ("reason", "无法读取目录内容"); ("path", "/a")].
Proof.
  repeat split. discriminate.
Qed.

(* ================================================================== *)
(** ** What a failure reports *)

Lemma make_directory_denied (depth : nat) (p : string) (w : world) :
  _resolve_path depth (self w) (disk w) p = Ret None ->
  make_directory depth p w = (Ret denied, w).
Proof.
  intros R. unfold make_directory, bind, reading. now rewrite R.
Qed.

Lemma write_file_denied (depth : nat) (p c : string) (w : world) :
  _resolve_path depth (self w) (disk w) p = Ret None ->
  write_file depth p c w = (Ret denied, w).
Proof.
  intros R. unfold write_file, bind, reading. now rewrite R.
Qed.

(** C9, as the code has it.  A containment denial is a fixed message that
    holds no path, except that [read_file] adds the caller's own string
    under ["path"]; the not-found and not-a-directory results of
    [change_directory] and [get_directory_tree] hold the caller's string;
    every result of [read_file] on a resolved path holds ["/"] and the path
    relative to the root. *)
Theorem C9_failure_reports (depth : nat) (p : string) (w : world) :
  match _resolve_path depth (self w) (disk w) p with
  | Ret None =>
      exists_ depth (self w) (disk w) p = Ret denied /\
      change_directory depth p w = (Ret denied, w) /\
      make_directory depth p w = (Ret denied, w) /\
      (forall c, write_file depth p c w = (Ret denied, w)) /\
      read_file depth (self w) (disk w) p
      = Ret [("state", "error"); ("reason", denied); ("path", p)] /\
      (forall fuel,
          get_directory_tree depth fuel (self w) (disk w) p
          = Some (Ret [(KStr "error", "路径超出根目录范围")]))
  | Ret (Some q) =>
      (if Fs.exists_ (disk w) q then
         if Fs.is_dir (disk w) q then True
         else
           fst (change_directory depth p w)
           = Ret ("切换失败：" ++ p ++ " 不是一个目录")%string /\
           (forall fuel,
               get_directory_tree depth fuel (self w) (disk w) p
               = Some (Ret [(KStr "error", (p ++ " 不是一个目录")%string)]))
       else
         fst (change_directory depth p w)
         = Ret ("切换失败：目录不存在 - " ++ p)%string /\
         (forall fuel,
             get_directory_tree depth fuel (self w) (disk w) p
             = Some (Ret [(KStr "error", ("目录不存在: " ++ p)%string)]))) /\
      (forall rel,
          relative_to q (root_path (self w)) = Ret rel ->
          exists d,
            read_file depth (self w) (disk w) p = Ret d /\
            dict_get "path" d = Some ("/" ++ str_rel rel)%string)
  | Raise e => exists_ depth (self w) (disk w) p = Raise e
  end.
Proof.
  destruct (_resolve_path depth (self w) (disk w) p) as [[q|]|e] eqn:R.
  - split.
    + rewrite change_directory_value, R. unfold get_directory_tree.
      rewrite R.
      destruct (Fs.exists_ (disk w) q); simpl; [|auto].
      destruct (Fs.is_dir (disk w) q); simpl; auto.
    + intros rel Rel. unfold read_file. rewrite R, Rel.
      destruct (Fs.is_dir (disk w) q); [eexists; split; reflexivity|].
      destruct (Fs.exists_ (disk w) q); simpl;
        [|eexists; split; reflexivity].
      destruct (Fs.read_text (disk w) q); eexists; split; reflexivity.
  - repeat split.
    + unfold exists_. now rewrite R.
    + unfold change_directory, bind, reading. now rewrite R.
    + now apply make_directory_denied.
    + intros c. now apply write_file_denied.
    + unfold read_file. now rewrite R.
    + intros fuel. unfold get_directory_tree. now rewrite R.
  - unfold exists_. now rewrite R.
Qed.

Lemma C9_witness :
  exists d,
    read_file 8 Sample.tool Sample.fs "a/./b" = Ret d /\
    dict_get "path" d = Some "/a/b".
Proof.
  apply (proj2 (C9_failure_reports 8 "a/./b" Sample.world) ["a"; "b"]).
  reflexivity.
Defined.

(** The claim C9 as it is written fails: the denial that [exists] returns
    for ["../etc"] does not hold that path, and no other denial does. *)
Lemma C9_counterexample :
  exists_ 8 Sample.tool Sample.fs "../etc" = Ret denied /\
  Str.contains "../etc" denied = false /\
  Str.contains "etc" denied = false /\
  fst (change_directory 8 "../etc" Sample.world) = Ret denied /\
  fst (make_directory 8 "../etc" Sample.world) = Ret denied.
Proof. repeat split. Qed.

(* ================================================================== *)
(** ** More about the tree *)

Lemma lookup_prefix (fs : node) (a b : list string) (nd : node) :
  Posix.lookup fs (a ++ b) = Ok nd ->
  exists c, Posix.lookup fs a = Ok c /\ (b <> [] -> exists es, c = Dir es).
Proof.
  rewrite lookup_app. destruct (Posix.lookup fs a) as [c|]; [|discriminate].
  intros H. exists c; split; [reflexivity|]. intros N.
  destruct b as [|x b]; [congruence|]. simpl in H.
  destruct c as [| |es]; try discriminate. now exists es.
Qed.

Lemma keeps_refl (fs : node) : keeps fs fs.
Proof. intros x nd H. now exists nd. Qed.

Lemma keeps_trans (a b c : node) : keeps a b -> keeps b c -> keeps a c.
Proof.
  intros H1 H2 x nd H. destruct (H1 x nd H) as (nd1 & L1 & K1).
  destruct (H2 x nd1 L1) as (nd2 & L2 & K2). exists nd2; split; congruence.
Qed.


Lemma keeps_but_trans (q : list string) (a b c : node) :
  keeps_but q a b -> keeps_but q b c -> keeps_but q a c.
Proof.
  intros H1 H2 x nd N H. destruct (H1 x nd N H) as (nd1 & L1 & K1).
  destruct (H2 x nd1 N L1) as (nd2 & L2 & K2). exists nd2; split; congruence.
Qed.

(** Setting a node where there was a file or nothing touches nothing
    else. *)
Lemma put_keeps_but :
  forall p fs fs' v,
    Posix.put fs p v = Some fs' ->
    (Posix.lookup fs p = Err ENOENT \/ exists d, Posix.lookup fs p = Ok (File d)) ->
    keeps_but p fs fs'.
Proof.
  induction p as [|name p IH]; intros fs fs' v H Old x nd N L; simpl in H.
  - destruct Old as [Old|[d Old]]; simpl in Old; [discriminate|].
    injection Old as ->. destruct x; [congruence | discriminate].
  - destruct fs as [| |es]; try discriminate.
    destruct x as [|y xs].
    + simpl in L. injection L as <-.
      destruct p as [|z r].
      * injection H as <-. eexists; split; reflexivity.
      * destruct (Posix.assoc name es) as [c|]; [|discriminate].
        destruct (Posix.put c (z :: r) v) as [c'|]; [|discriminate].
        injection H as <-. eexists; split; reflexivity.
    + destruct (String.eqb_spec y name) as [->|Ny].
      * destruct p as [|z r].
        -- exfalso. simpl in L, Old.
           destruct (Posix.assoc name es) as [c|]; [|discriminate].
           destruct Old as [Old|[d Old]]; [discriminate|].
           injection Old as ->. destruct xs; [congruence | discriminate].
        -- destruct (Posix.assoc name es) as [c|] eqn:A; [|discriminate].
           destruct (Posix.put c (z :: r) v) as [c'|] eqn:E; [|discriminate].
           injection H as <-. simpl Posix.lookup at 1.
           rewrite assoc_set_same.
           apply (IH c c' v E).
           ++ simpl in Old |- *. now rewrite A in Old.
           ++ congruence.
           ++ simpl in L. now rewrite A in L.
      * exists nd; split; [|reflexivity].
        assert (G : forall es', Posix.assoc y es' = Posix.assoc y es ->
                                Posix.lookup (Dir es') (y :: xs) = Ok nd).
        { intros es' Ee. simpl. rewrite Ee. exact L. }
        destruct p as [|z r].
        -- injection H as <-. apply G. now apply assoc_set_other.
        -- destruct (Posix.assoc name es) as [c|]; [|discriminate].
           destruct (Posix.put c (z :: r) v) as [c'|]; [|discriminate].
           injection H as <-. apply G. now apply assoc_set_other.
Qed.

Lemma posix_mkdir_keeps (fs fs' : node) (q : list string) :
  Posix.mkdir fs q = Ok fs' -> keeps fs fs'.
Proof.
  unfold Posix.mkdir. intros H. destruct q as [|x q]; [discriminate|].
  destruct (Posix.namei _ _ _ _ _) as [d|]; [|discriminate].
  destruct (Posix.lookup fs d) as [[| |es]|] eqn:L; try discriminate.
  destruct (_ =? ".."); [discriminate|].
  destruct (Posix.assoc _ es) eqn:A; [discriminate|].
  destruct (Posix.put _ _ _) as [t|] eqn:P; [|discriminate].
  injection H as <-.
  assert (Old : Posix.lookup fs (d ++ [last (x :: q) EmptyString]) = Err ENOENT)
    by now rewrite lookup_snoc, L, A.
  intros y nd Hy. eapply put_keeps_but; [eassumption | now left | | exact Hy].
  intros ->. congruence.
Qed.

(** [os.mkdir] on a canonical path that succeeds has made the directory,
    which was not there. *)
Lemma posix_mkdir_made (fs fs' : node) (q : list string) :
  canonicalP fs q -> Posix.mkdir fs q = Ok fs' ->
  Posix.lookup fs' q = Ok (Dir []) /\ Posix.lookup fs q = Err ENOENT.
Proof.
  unfold Posix.mkdir. intros Hc H. destruct q as [|x q]; [discriminate|].
  assert (Eq : removelast (x :: q) ++ [last (x :: q) EmptyString] = x :: q)
    by (symmetry; apply app_removelast_last; discriminate).
  destruct (Posix.namei _ _ _ _ _) as [d|] eqn:N; [|discriminate].
  apply namei_canonical in N; [|now apply canonicalP_removelast].
  rewrite app_nil_l in N. subst d.
  destruct (Posix.lookup fs _) as [[| |es]|] eqn:L; try discriminate.
  destruct (_ =? ".."); [discriminate|].
  destruct (Posix.assoc _ es) eqn:A; [discriminate|].
  destruct (Posix.put _ _ _) as [t|] eqn:P; [|discriminate].
  injection H as <-. rewrite Eq in P. split.
  - eapply put_lookup; eassumption.
  - rewrite <- Eq. now rewrite lookup_snoc, L, A.
Qed.

Lemma is_dir_lookup (fs : node) (q : list string) :
  canonicalP fs q ->
  Fs.is_dir fs q = true <-> exists es, Posix.lookup fs q = Ok (Dir es).
Proof.
  intros Hc. unfold Fs.is_dir. split.
  - destruct (Posix.stat fs q) as [[i [| |es]]|] eqn:S; try discriminate.
    intros _. apply stat_canonical in S as [_ S]; [|assumption]. now exists es.
  - intros [es L]. now rewrite (stat_found fs q (Dir es) Hc L).
Qed.

Lemma exists_lookup (fs : node) (q : list string) :
  canonicalP fs q ->
  Fs.exists_ fs q = true <-> exists nd, Posix.lookup fs q = Ok nd.
Proof.
  intros Hc. unfold Fs.exists_. split.
  - destruct (Posix.stat fs q) as [[i nd]|] eqn:S; [|discriminate].
    intros _. apply stat_canonical in S as [_ S]; [|assumption]. now exists nd.
  - intros [nd L]. now rewrite (stat_found fs q nd Hc L).
Qed.


Lemma mkdir_exist_ok_keeps (q : list string) (fs : node) :
  keeps fs (snd (Fs.mkdir_exist_ok q fs)).
Proof.
  unfold Fs.mkdir_exist_ok.
  destruct (Posix.mkdir fs q) as [fs'|[]] eqn:E; simpl;
    try (eapply posix_mkdir_keeps; eassumption);
    try (destruct (Fs.is_dir fs q)); apply keeps_refl.
Qed.

Lemma mkdir_parents_rev_unfold (rq : list string) (fs : node) :
  Fs.mkdir_parents_rev rq fs =
  match Posix.mkdir fs (List.rev rq) with
  | Ok fs' => (Ret tt, fs')
  | Err ENOENT =>
      match rq with
      | [] => (Raise (OSError ENOENT (str (List.rev rq))), fs)
      | _ :: rparent =>
          (_ <- Fs.mkdir_parents_rev rparent ;;
           Fs.mkdir_exist_ok (List.rev rq)) fs
      end
  | Err e =>
      if Fs.is_dir fs (List.rev rq) then (Ret tt, fs)
      else (Raise (OSError e (str (List.rev rq))), fs)
  end.
Proof. destruct rq; reflexivity. Qed.

Lemma mkdir_parents_rev_keeps :
  forall rq fs, keeps fs (snd (Fs.mkdir_parents_rev rq fs)).
Proof.
  induction rq as [|x rq IH]; intros fs; rewrite mkdir_parents_rev_unfold;
    destruct (Posix.mkdir fs _) as [fs'|[]] eqn:E;
    try (eapply posix_mkdir_keeps; eassumption);
    try (destruct (Fs.is_dir fs _); apply keeps_refl);
    try apply keeps_refl.
  unfold bind. specialize (IH fs).
  destruct (Fs.mkdir_parents_rev rq fs) as [[[]|e] fs1]; simpl in *;
    [|assumption].
  eapply keeps_trans; [eassumption | apply mkdir_exist_ok_keeps].
Qed.

Lemma mkdir_parents_keeps (q : list string) (fs : node) :
  keeps fs (snd (Fs.mkdir_parents q fs)).
Proof. apply mkdir_parents_rev_keeps. Qed.


(** A successful [mkdir(parents=True, exist_ok=True)] on a canonical path
    leaves a directory there. *)
Lemma mkdir_exist_ok_dir (q : list string) (fs fs' : node) :
  canonicalP fs q -> Fs.mkdir_exist_ok q fs = (Ret tt, fs') ->
  exists es, Posix.lookup fs' q = Ok (Dir es).
Proof.
  unfold Fs.mkdir_exist_ok. intros Hc H.
  destruct (Posix.mkdir fs q) as [fs1|e] eqn:E.
  - injection H as <-. exists []. now apply (posix_mkdir_made fs fs1 q).
  - destruct e; try discriminate;
      (destruct (Fs.is_dir fs q) eqn:D; [|discriminate]);
      injection H as <-; now apply is_dir_lookup.
Qed.

Lemma mkdir_parents_dir (q : list string) (fs fs' : node) :
  canonicalP fs q -> Fs.mkdir_parents q fs = (Ret tt, fs') ->
  exists es, Posix.lookup fs' q = Ok (Dir es).
Proof.
  unfold Fs.mkdir_parents. rewrite mkdir_parents_rev_unfold, rev_involutive.
  intros Hc H.
  destruct (Posix.mkdir fs q) as [fs1|e] eqn:E.
  - injection H as <-. exists []. now apply (posix_mkdir_made fs fs1 q).
  - destruct e;
      try (destruct (Fs.is_dir fs q) eqn:D; [|discriminate];
           injection H as <-; now apply is_dir_lookup).
    destruct (List.rev q) as [|x rp]; [discriminate|].
    unfold bind in H.
    pose proof (mkdir_parents_rev_same_links rp fs) as L.
    destruct (Fs.mkdir_parents_rev rp fs) as [[[]|e] fs1]; [|discriminate].
    simpl in L. eapply mkdir_exist_ok_dir; [|eassumption].
    eapply canonicalP_same_links; eassumption.
Qed.

(** On a directory that is there, [mkdir(parents=True, exist_ok=True)]
    changes nothing. *)
Lemma mkdir_parents_present (q : list string) (fs : node)
  (es : list (string * node)) :
  canonicalP fs q -> Posix.lookup fs q = Ok (Dir es) ->
  Fs.mkdir_parents q fs = (Ret tt, fs).
Proof.
  intros Hc L. unfold Fs.mkdir_parents.
  rewrite mkdir_parents_rev_unfold, rev_involutive.
  assert (D : Fs.is_dir fs q = true) by (apply is_dir_lookup; eauto).
  destruct (Posix.mkdir fs q) as [fs1|e] eqn:E.
  - apply posix_mkdir_made in E as [_ E]; [congruence | assumption].
  - rewrite D. destruct e; try reflexivity.
    exfalso. revert E. unfold Posix.mkdir.
    destruct q as [|x q0] eqn:Eq; [discriminate|]. rewrite <- Eq in *.
    assert (Eql : removelast q ++ [last q EmptyString] = q)
      by (symmetry; apply app_removelast_last; subst; discriminate).
    rewrite <- Eql in L. rewrite lookup_snoc in L.
    destruct (Posix.lookup fs (removelast q)) as [[| |es0]|] eqn:Lp;
      try discriminate.
    assert (Hp : canonicalP fs (removelast q)) by now apply canonicalP_removelast.
    rewrite (namei_found fs Posix.MAXSYMLINKS false (removelast q) [] _ Hp Lp).
    rewrite app_nil_l, Lp.
    destruct (last q EmptyString =? ".."); [discriminate|].
    destruct (Posix.assoc (last q EmptyString) es0); discriminate.
Qed.

(* ================================================================== *)
(** ** More about path resolution *)

Lemma strip_prefix_inv (r q s : list string) :
  strip_prefix r q = Some s -> q = r ++ s.
Proof.
  revert q; induction r as [|x r IH]; intros q H; simpl in H.
  - now injection H as ->.
  - destruct q as [|y q]; [discriminate|].
    destruct (String.eqb_spec x y) as [->|]; [|discriminate].
    simpl. f_equal. now apply IH.
Qed.


Lemma not_own_parent (r : list string) : in_parents r r = false.
Proof.
  destruct (in_parents r r) eqn:E; [|reflexivity].
  apply in_parents_iff in E as (s & N & E).
  rewrite <- (app_nil_r r) in E at 1. apply app_inv_head in E. congruence.
Qed.

(** [_resolve_path] accepts what resolves within the root; when that is
    the root itself, the root has to exist. *)
Lemma resolve_path_accepts (depth : nat) (tool : t) (fs : node) (p : string)
  (q : list string) :
  canonicalP fs (root_path tool) ->
  Fs.resolve depth fs (anchored tool (Path p)) = Ret q ->
  within (root_path tool) q ->
  (q = root_path tool -> exists nd, Posix.lookup fs q = Ok nd) ->
  _resolve_path depth tool fs p = Ret (Some q).
Proof.
  intros Hr R W E. unfold _resolve_path. rewrite R.
  destruct (in_parents (root_path tool) q) eqn:I; [reflexivity|].
  destruct W as [->|W]; [|apply in_parents_iff in W; congruence].
  destruct (E eq_refl) as [nd L]. unfold Fs.samefile.
  rewrite (stat_found fs _ nd Hr L). now rewrite path_eqb_refl.
Qed.

(** What [_resolve_path] returned it returns again after a change that
    added no symbolic link, if the path is there. *)
Lemma resolve_path_stable (depth : nat) (tool : t) (fs fs' : node)
  (p : string) (q : list string) :
  same_links fs fs' -> canonicalP fs (root_path tool) ->
  _resolve_path depth tool fs p = Ret (Some q) ->
  (exists nd, Posix.lookup fs' q = Ok nd) ->
  _resolve_path depth tool fs' p = Ret (Some q).
Proof.
  intros L Hr R E. destruct (resolve_path_sound _ _ _ _ _ Hr R) as [W _].
  apply resolve_path_inv in R as [R _].
  apply resolve_path_accepts; auto.
  - eapply canonicalP_same_links; eassumption.
  - unfold Fs.resolve in *. now rewrite (joinrealpath_same_links fs fs' depth L).
Qed.

Lemma strip_prefix_inv_rel (q r s : list string) :
  relative_to q r = Ret s -> q = r ++ s.
Proof.
  unfold relative_to. destruct (strip_prefix r q) eqn:E; [|discriminate].
  intros H. injection H as <-. now apply strip_prefix_inv.
Qed.

(** What a successful [make_directory] has done. *)
Lemma make_directory_success (depth : nat) (d msg : string) (w w' : world) :
  make_directory depth d w = (Ret msg, w') ->
  String.prefix "已创建目录" msg = true ->
  exists q rel,
    _resolve_path depth (self w) (disk w) d = Ret (Some q) /\
    Fs.mkdir_parents q (disk w) = (Ret tt, disk w') /\
    relative_to q (root_path (self w)) = Ret rel /\
    self w' = self w /\
    msg = ("已创建目录: " ++ str_rel rel)%string.
Proof.
  destruct w as [fs tool].
  unfold make_directory, bind, reading, try_except, on_disk, ret.
  cbv beta iota delta [self disk].
  destruct (_resolve_path depth tool fs d) as [[q|]|e];
    intros H P; try discriminate;
    [|injection H as <- <-; discriminate].
  destruct (Fs.mkdir_parents q fs) as [[[]|e] fs1] eqn:M;
    cbv beta iota delta [self disk] in H;
    destruct (relative_to q (root_path tool)) as [rel|e'] eqn:R;
    cbv beta iota delta [self disk] in H; rewrite ?R in H;
    try discriminate;
    try (injection H as <- <-; discriminate).
  injection H as <- <-. exists q, rel. simpl. auto.
Qed.

(* ================================================================== *)
(** ** Further properties of the methods *)

(** X1. After [make_directory(d)] has reported success the directory is
    there: [d] resolves to a directory, [exists(d)] reports it, and
    [change_directory(d)] moves the cursor into it. *)
Theorem X1_make_directory_creates (depth : nat) (d msg : string)
  (w w' : world) :
  canonical (disk w) (root_path (self w)) = true ->
  make_directory depth d w = (Ret msg, w') ->
  String.prefix "已创建目录" msg = true ->
  exists q,
    _resolve_path depth (self w') (disk w') d = Ret (Some q) /\
    Fs.is_dir (disk w') q = true /\
    exists_ depth (self w') (disk w') d = Ret "文件/目录存在" /\
    snd (change_directory depth d w')
    = {| disk := disk w';
         self := {| root_path := root_path (self w'); current_dir := q |} |}.
Proof.
  intros Hr H P. apply canonical_iff in Hr.
  destruct (make_directory_success _ _ _ _ _ H P)
    as (q & rel & R & M & Rel & S & _).
  destruct (resolve_path_sound _ _ _ _ _ Hr R) as [_ Hq].
  assert (L : same_links (disk w) (disk w')).
  { pose proof (mkdir_parents_same_links q (disk w)) as L. now rewrite M in L. }
  assert (Hq' : canonicalP (disk w') q)
    by (eapply canonicalP_same_links; eassumption).
  destruct (mkdir_parents_dir _ _ _ Hq M) as [es D].
  assert (R' : _resolve_path depth (self w) (disk w') d = Ret (Some q))
    by (eapply resolve_path_stable; eauto).
  assert (I : Fs.is_dir (disk w') q = true) by (apply is_dir_lookup; eauto).
  assert (E : Fs.exists_ (disk w') q = true) by (apply exists_lookup; eauto).
  exists q. rewrite S. repeat split; try assumption.
  - unfold exists_. now rewrite R', E.
  - rewrite change_directory_world, S, R', E, I. reflexivity.
Qed.

Lemma X1_witness :
  exists q,
    _resolve_path 8 Sample.tool
      (disk (snd (make_directory 8 "n/m" Sample.world))) "n/m" = Ret (Some q) /\
    Fs.is_dir (disk (snd (make_directory 8 "n/m" Sample.world))) q = true /\
    exists_ 8 Sample.tool
      (disk (snd (make_directory 8 "n/m" Sample.world))) "n/m"
    = Ret "文件/目录存在" /\
    snd (change_directory 8 "n/m" (snd (make_directory 8 "n/m" Sample.world)))
    = {| disk := disk (snd (make_directory 8 "n/m" Sample.world));
         self := {| root_path := ["sandbox"]; current_dir := q |} |}.
Proof.
  apply (X1_make_directory_creates 8 "n/m" "已创建目录: n/m" Sample.world
           (snd (make_directory 8 "n/m" Sample.world)));
    reflexivity.
Defined.



(** X3. [make_directory] is idempotent: after it has succeeded, the same
    call again returns the same message and changes nothing. *)
Theorem X3_make_directory_idempotent (depth : nat) (d msg : string)
  (w w' : world) :
  canonical (disk w) (root_path (self w)) = true ->
  make_directory depth d w = (Ret msg, w') ->
  String.prefix "已创建目录" msg = true ->
  make_directory depth d w' = (Ret msg, w').
Proof.
  intros Hr H P. apply canonical_iff in Hr.
  destruct (make_directory_success _ _ _ _ _ H P)
    as (q & rel & R & M & Rel & S & ->).
  destruct (resolve_path_sound _ _ _ _ _ Hr R) as [_ Hq].
  assert (L : same_links (disk w) (disk w')).
  { pose proof (mkdir_parents_same_links q (disk w)) as L. now rewrite M in L. }
  assert (Hq' : canonicalP (disk w') q)
    by (eapply canonicalP_same_links; eassumption).
  destruct (mkdir_parents_dir _ _ _ Hq M) as [es D].
  assert (R' : _resolve_path depth (self w) (disk w') d = Ret (Some q))
    by (eapply resolve_path_stable; eauto).
  destruct w as [fs tool], w' as [fs' tool'].
  cbv beta iota delta [self disk] in *. subst tool'.
  unfold make_directory, bind, reading, try_except, on_disk, ret.
  cbv beta iota delta [self disk]. rewrite R'.
  rewrite (mkdir_parents_present q fs' es Hq' D).
  cbv beta iota delta [self disk]. now rewrite Rel.
Qed.

Lemma X3_witness :
  make_directory 8 "n/m" (snd (make_directory 8 "n/m" Sample.world))
  = (Ret "已创建目录: n/m", snd (make_directory 8 "n/m" Sample.world)).
Proof.
  apply (X3_make_directory_idempotent 8 "n/m" "已创建目录: n/m" Sample.world);
    reflexivity.
Defined.


Lemma make_directory_keeps (depth : nat) (d : string) (w : world) :
  keeps (disk w) (disk (snd (make_directory depth d w))).
Proof.
  rewrite make_directory_world.
  destruct (_resolve_path depth (self w) (disk w) d) as [[q|]|e];
    try apply keeps_refl.
  apply mkdir_parents_keeps.
Qed.



(** X4. [make_directory] removes nothing and alters nothing: whatever was
    in the file system is still there, with its type, its content and its
    target, whether the call succeeds, fails or is denied. *)
Theorem X4_make_directory_keeps (depth : nat) (d : string) (w : world)
  (x : list string) (nd : node) :
  Posix.lookup (disk w) x = Ok nd ->
  self (snd (make_directory depth d w)) = self w /\
  exists nd',
    Posix.lookup (disk (snd (make_directory depth d w))) x = Ok nd' /\
    kind_of nd' = kind_of nd.
Proof.
  intros L. split.
  - apply make_directory_frame.
  - now apply make_directory_keeps.
Qed.

Lemma X4_witness :
  self (snd (make_directory 8 "a/b/f.txt/z" Sample.world)) = self Sample.world /\
  exists nd',
    Posix.lookup (disk (snd (make_directory 8 "a/b/f.txt/z" Sample.world)))
      ["sandbox"; "a"; "b"; "f.txt"] = Ok nd' /\
    kind_of nd' = kind_of (File "hello").
Proof.
  apply (X4_make_directory_keeps 8 "a/b/f.txt/z" Sample.world
           ["sandbox"; "a"; "b"; "f.txt"] (File "hello")).
  reflexivity.
Defined.







Lemma change_directory_pair (depth : nat) (location : string) (w : world) :
  change_directory depth location w
  = (fst (change_directory depth location w),
     snd (change_directory depth location w)).
Proof. apply surjective_pairing. Qed.

(** A successful [change_directory], from what it takes. *)
Lemma change_directory_moves (depth : nat) (location : string) (w : world)
  (q rel : list string) :
  _resolve_path depth (self w) (disk w) location = Ret (Some q) ->
  Fs.exists_ (disk w) q = true -> Fs.is_dir (disk w) q = true ->
  q = root_path (self w) ++ rel ->
  change_directory depth location w
  = (Ret ("已切换到: /" ++ str_rel rel)%string,
     {| disk := disk w;
        self := {| root_path := root_path (self w); current_dir := q |} |}).
Proof.
  intros R E I ->. rewrite change_directory_pair.
  rewrite change_directory_value, change_directory_world, R, E, I. simpl.
  unfold get_current_directory, relative_to. simpl.
  now rewrite strip_prefix_app.
Qed.

(** X7. Beneath the root, [change_directory("..")] moves the cursor one
    level up, to the directory that holds it. *)
Theorem X7_dotdot_moves_up (depth : nat) (w : world) (s : list string) :
  canonical (disk w) (root_path (self w)) = true ->
  canonical (disk w) (current_dir (self w)) = true ->
  current_dir (self w) = root_path (self w) ++ s -> s <> [] ->
  Fs.exists_ (disk w) (current_dir (self w)) = true ->
  change_directory depth ".." w
  = (Ret ("已切换到: /" ++ str_rel (removelast s))%string,
     {| disk := disk w;
        self := {| root_path := root_path (self w);
                   current_dir := root_path (self w) ++ removelast s |} |}).
Proof.
  intros Hr Hc E N X. apply canonical_iff in Hr, Hc.
  apply exists_lookup in X as [nd X]; [|assumption].
  assert (Eq : root_path (self w) ++ removelast s = removelast (current_dir (self w)))
    by (rewrite E; symmetry; now apply removelast_app).
  assert (Hq : canonicalP (disk w) (root_path (self w) ++ removelast s))
    by (rewrite Eq; now apply canonicalP_removelast).
  assert (Es : current_dir (self w)
               = (root_path (self w) ++ removelast s) ++ [last s EmptyString]).
  { rewrite <- app_assoc, <- app_removelast_last by assumption. exact E. }
  rewrite Es in X. apply lookup_prefix in X as (c & L & D).
  destruct D as [es ->]; [discriminate|].
  apply change_directory_moves; [| | |reflexivity].
  - apply resolve_path_accepts; try assumption.
    + change (anchored (self w) (Path ".."))
        with (current_dir (self w) ++ [".."]).
      unfold Fs.resolve.
      rewrite (joinrealpath_through (disk w) depth (current_dir (self w)) [] [".."])
        by assumption.
      rewrite joinrealpath_cons. simpl. rewrite joinrealpath_nil.
      now rewrite Eq.
    + destruct (removelast s) as [|y r] eqn:Er.
      * left. now rewrite app_nil_r.
      * right. exists (y :: r). split; [discriminate | reflexivity].
    + intros _. eauto.
  - apply exists_lookup; eauto.
  - apply is_dir_lookup; eauto.
Qed.

Lemma X7_witness :
  change_directory 8 ".."
    {| disk := Sample.fs;
       self := {| root_path := ["sandbox"];
                  current_dir := ["sandbox"; "a"; "b"] |} |}
  = (Ret ("已切换到: /" ++ str_rel (removelast ["a"; "b"]))%string,
     {| disk := Sample.fs;
        self := {| root_path := ["sandbox"];
                   current_dir := ["sandbox"] ++ removelast ["a"; "b"] |} |}).
Proof.
  apply (X7_dotdot_moves_up 8
           {| disk := Sample.fs;
              self := {| root_path := ["sandbox"];
                         current_dir := ["sandbox"; "a"; "b"] |} |}
           ["a"; "b"]);
    try reflexivity. discriminate.
Defined.

(** X8. When the root is a directory that exists, [change_directory("/")]
    brings the cursor back to the root from wherever it is. *)
Theorem X8_slash_returns_to_root (depth : nat) (w : world)
  (es : list (string * node)) :
  canonical (disk w) (root_path (self w)) = true ->
  Posix.lookup (disk w) (root_path (self w)) = Ok (Dir es) ->
  change_directory depth "/" w
  = (Ret "已切换到: /.",
     {| disk := disk w;
        self := {| root_path := root_path (self w);
                   current_dir := root_path (self w) |} |}).
Proof.
  intros Hr L. apply canonical_iff in Hr.
  apply (change_directory_moves depth "/" w (root_path (self w)) []).
  - apply resolve_path_accepts; try assumption.
    + change (anchored (self w) (Path "/")) with (root_path (self w) ++ []).
      rewrite app_nil_r. now apply resolve_fixed.
    + now left.
    + intros _. eauto.
  - apply exists_lookup; eauto.
  - apply is_dir_lookup; eauto.
  - now rewrite app_nil_r.
Qed.

Lemma X8_witness :
  change_directory 8 "/" Sample.in_a
  = (Ret "已切换到: /.",
     {| disk := disk Sample.in_a;
        self := {| root_path := root_path (self Sample.in_a);
                   current_dir := root_path (self Sample.in_a) |} |}).
Proof.
  eapply (X8_slash_returns_to_root 8 Sample.in_a); reflexivity.
Defined.

Lemma stat_missing (fs : node) (q : list string) (e : errno) :
  canonicalP fs q -> Posix.lookup fs q = Err e ->
  exists e', Posix.stat fs q = Err e'.
Proof.
  intros Hc L. destruct (Posix.stat fs q) as [[i nd]|e'] eqn:S; [|eauto].
  apply stat_canonical in S as [_ S]; [congruence | assumption].
Qed.

Lemma resolved_canonical (depth : nat) (tool : t) (fs : node) (p : string)
  (q : list string) :
  _resolve_path depth tool fs p = Ret (Some q) -> canonicalP fs q.
Proof.
  intros R. apply resolve_path_inv in R as [R _].
  eapply resolve_canonical; eassumption.
Qed.



(** X10. [exists] and [read_file] agree on what is missing: for a path
    that resolves, [exists] reports that nothing is there exactly when
    [read_file] gives the reason that the file does not exist. *)
Theorem X10_exists_agrees_with_read_file (depth : nat) (tool : t) (fs : node)
  (p : string) (q rel : list string) :
  _resolve_path depth tool fs p = Ret (Some q) ->
  relative_to q (root_path tool) = Ret rel ->
  (exists_ depth tool fs p = Ret "文件/目录不存在" <->
   exists d,
     read_file depth tool fs p = Ret d /\
     dict_get "reason" d = Some "文件不存在").
Proof.
  intros R Rel. pose proof (resolved_canonical _ _ _ _ _ R) as Hq.
  unfold exists_, read_file. rewrite R, Rel.
  unfold Fs.is_dir, Fs.exists_, Fs.read_text, Posix.read.
  destruct (Posix.stat fs q) as [[i [data| |]]|e]; simpl.
  - split; [discriminate|]. intros (d & H & G).
    destruct (Utf8.valid data); injection H as <-; discriminate.
  - split; [discriminate|]. intros (d & H & G).
    injection H as <-. discriminate.
  - split; [discriminate|]. intros (d & H & G).
    injection H as <-. discriminate.
  - split; [|reflexivity]. intros _. eexists; split; reflexivity.
Qed.

Lemma X10_witness :
  exists_ 8 Sample.tool Sample.fs "a/zz" = Ret "文件/目录不存在" <->
  exists d,
    read_file 8 Sample.tool Sample.fs "a/zz" = Ret d /\
    dict_get "reason" d = Some "文件不存在".
Proof.
  apply (X10_exists_agrees_with_read_file 8 Sample.tool Sample.fs "a/zz"
           ["sandbox"; "a"; "zz"] ["a"; "zz"]);
    reflexivity.
Defined.

(** X11. With a canonical cursor [list_contents] never raises: when the
    cursor is a directory it returns one line for each entry and their
    number as the count, and otherwise one of its two error results. *)
Theorem X11_list_contents (tool : t) (fs : node) :
  canonical fs (current_dir tool) = true ->
  list_contents tool fs =
  Ret match Posix.lookup fs (current_dir tool) with
      | Ok (Dir es) =>
          [("files",
            Str.join nl
              (map (fun item =>
                      (dquote ++ item ++ dquote ++ " ("
                         ++ (if Fs.is_dir fs (current_dir tool ++ [item])
                             then "目录" else "文件") ++ ")")%string)
                 (map fst es)));
           ("count", Str.of_nat (List.length es))]
      | Ok _ => [("error", "当前路径不是一个目录")]
      | Err _ => [("error", "当前目录不存在")]
      end.
Proof.
  intros Hc. apply canonical_iff in Hc. unfold list_contents.
  unfold Fs.exists_, Fs.is_dir at 1, Fs.listdir, Posix.scandir.
  destruct (Posix.lookup fs (current_dir tool)) as [nd|e] eqn:L.
  - rewrite (stat_found fs _ nd Hc L).
    destruct nd as [| |es]; simpl; try reflexivity.
    now rewrite !length_map.
  - destruct (stat_missing fs _ e Hc L) as [e' ->]. reflexivity.
Qed.

Lemma X11_witness :
  list_contents
    {| root_path := ["sandbox"]; current_dir := ["sandbox"; "a"] |} Sample.fs =
  Ret match Posix.lookup Sample.fs ["sandbox"; "a"] with
      | Ok (Dir es) =>
          [("files",
            Str.join nl
              (map (fun item =>
                      (dquote ++ item ++ dquote ++ " ("
                         ++ (if Fs.is_dir Sample.fs (["sandbox"; "a"] ++ [item])
                             then "目录" else "文件") ++ ")")%string)
                 (map fst es)));
           ("count", Str.of_nat (List.length es))]
      | Ok _ => [("error", "当前路径不是一个目录")]
      | Err _ => [("error", "当前目录不存在")]
      end.
Proof.
  apply (X11_list_contents
           {| root_path := ["sandbox"]; current_dir := ["sandbox"; "a"] |}
           Sample.fs).
  reflexivity.
Defined.

(* ================================================================== *)
(** ** The directory tree *)









(* ================================================================== *)
(** ** The parts of a path *)

Lemma split_cons (c : ascii) (s : string) :
  exists x xs, Str.split c s = x :: xs.
Proof.
  destruct s as [|a s]; simpl; [eauto|].
  destruct (Ascii.eqb a c); [eauto|].
  destruct (Str.split c s); eauto.
Qed.

Lemma split_trailing (c : ascii) (s : string) :
  Str.split c (s ++ String c EmptyString)%string
  = Str.split c s ++ [EmptyString].
Proof.
  induction s as [|a s IH]; simpl.
  - now rewrite Ascii.eqb_refl.
  - destruct (Ascii.eqb a c); [now rewrite IH|].
    rewrite IH. destruct (split_cons c s) as (x & xs & ->). reflexivity.
Qed.

Lemma parts_trailing (rel : string) :
  filter is_part (Str.split "/" (rel ++ "/")%string)
  = filter is_part (Str.split "/" rel).
Proof.
  rewrite split_trailing, filter_app. simpl. apply app_nil_r.
Qed.

Lemma splitroot_cons (a : ascii) (r : string) :
  splitroot (String a r) =
  if Ascii.eqb a "/" then
    match r with
    | String b r2 =>
        if Ascii.eqb b "/" then
          match r2 with
          | String c r3 =>
              if Ascii.eqb c "/" then ("/", r) else ("//", r2)
          | EmptyString => ("//", r2)
          end
        else ("/", r)
    | EmptyString => ("/", r)
    end
  else (EmptyString, String a r).
Proof.
  destruct (Ascii.eqb_spec a "/") as [->|Na].
  - destruct r as [|b r2]; [reflexivity|].
    destruct (Ascii.eqb_spec b "/") as [->|Nb].
    + destruct r2 as [|c r3]; [reflexivity|].
      destruct (Ascii.eqb_spec c "/") as [->|Nc]; [reflexivity|].
      destruct c as [[] [] [] [] [] [] [] []]; try reflexivity.
      now elim Nc.
    + destruct b as [[] [] [] [] [] [] [] []]; try reflexivity.
      now elim Nb.
  - destruct a as [[] [] [] [] [] [] [] []]; try reflexivity.
    now elim Na.
Qed.

(** A slash at the end of a path that is not empty changes neither its
    parts nor whether it is absolute. *)
Lemma path_trailing (s : string) :
  s <> EmptyString ->
  parts (Path (s ++ "/")) = parts (Path s) /\
  is_absolute (Path (s ++ "/")) = is_absolute (Path s).
Proof.
  intros N. destruct s as [|a r]; [congruence|].
  unfold Path, is_absolute.
  change (String a r ++ "/")%string with (String a (r ++ "/")).
  rewrite !splitroot_cons.
  destruct (Ascii.eqb a "/") eqn:Ea; cbv beta match delta [parts anchor];
    [|split; [apply (parts_trailing (String a r)) | reflexivity]].
  destruct r as [|b r2]; [split; reflexivity|].
  change (String b r2 ++ "/")%string with (String b (r2 ++ "/")).
  cbv beta match.
  destruct (Ascii.eqb b "/") eqn:Eb; cbv beta match delta [parts anchor];
    [|split; [apply (parts_trailing (String b r2)) | reflexivity]].
  apply Ascii.eqb_eq in Eb. subst b.
  destruct r2 as [|c r3]; [split; reflexivity|].
  change (String c r3 ++ "/")%string with (String c (r3 ++ "/")).
  cbv beta match.
  destruct (Ascii.eqb c "/") eqn:Ec; cbv beta match delta [parts anchor];
    (split; [|reflexivity]).
  - apply (parts_trailing (String "/" (String c r3))).
  - apply (parts_trailing (String c r3)).
Qed.

(** X13. A slash at the end of a path that is not empty makes no
    difference to [_resolve_path], whatever the path names. *)
Theorem X13_trailing_slash (depth : nat) (tool : t) (fs : node) (s : string) :
  s <> EmptyString ->
  _resolve_path depth tool fs (s ++ "/") = _resolve_path depth tool fs s.
Proof.
  intros N. destruct (path_trailing s N) as [P A].
  unfold _resolve_path, anchored, joinpath, relative_to_root. simpl.
  now rewrite P, A.
Qed.

Lemma X13_witness :
  _resolve_path 8 Sample.tool Sample.fs ("a/b/f.txt" ++ "/")
  = _resolve_path 8 Sample.tool Sample.fs "a/b/f.txt".
Proof.
  apply (X13_trailing_slash 8 Sample.tool Sample.fs "a/b/f.txt").
  discriminate.
Defined.

(* ================================================================== *)
(** ** The root and the parents of a file *)

(** X14. When nothing is at the root (it was never made, or is gone),
    resolving ["/"] raises the error of [os.stat] on the root, and so does
    [exists("/")], instead of reporting that nothing is there. *)
Theorem X14_missing_root_raises (depth : nat) (tool : t) (fs : node)
  (e : errno) :
  canonical fs (root_path tool) = true ->
  Posix.lookup fs (root_path tool) = Err e ->
  exists e',
    _resolve_path depth tool fs "/" = Raise (OSError e' (str (root_path tool))) /\
    exists_ depth tool fs "/" = Raise (OSError e' (str (root_path tool))).
Proof.
  intros Hr L. apply canonical_iff in Hr.
  destruct (stat_missing fs _ e Hr L) as [e' S]. exists e'.
  assert (R : _resolve_path depth tool fs "/"
              = Raise (OSError e' (str (root_path tool)))).
  { unfold _resolve_path.
    change (anchored tool (Path "/")) with (root_path tool ++ []).
    rewrite app_nil_r, (resolve_fixed fs depth _ Hr), not_own_parent.
    unfold Fs.samefile. now rewrite S. }
  split; [exact R|]. unfold exists_. now rewrite R.
Qed.

Lemma X14_witness :
  exists e',
    _resolve_path 8
      {| root_path := ["gone"]; current_dir := ["gone"] |} Sample.fs "/"
    = Raise (OSError e' (str ["gone"])) /\
    exists_ 8 {| root_path := ["gone"]; current_dir := ["gone"] |} Sample.fs "/"
    = Raise (OSError e' (str ["gone"])).
Proof.
  apply (X14_missing_root_raises 8
           {| root_path := ["gone"]; current_dir := ["gone"] |} Sample.fs ENOENT);
    reflexivity.
Defined.



(* ================================================================== *)
(** ** What holds after any sequence of calls *)





(* ================================================================== *)
(** ** Printing a path and reading it back *)

Lemma split_no_sep (c : ascii) (x : string) :
  Str.has_char c x = false -> Str.split c x = [x].
Proof.
  induction x as [|a x IH]; simpl; [reflexivity|].
  intros H. apply orb_false_iff in H as [H1 H2].
  rewrite H1, (IH H2). reflexivity.
Qed.

Lemma split_first (c : ascii) (x s : string) :
  Str.has_char c x = false ->
  Str.split c (x ++ String c s)%string = x :: Str.split c s.
Proof.
  induction x as [|a x IH]; simpl.
  - intros _. now rewrite Ascii.eqb_refl.
  - intros H. apply orb_false_iff in H as [H1 H2].
    rewrite H1, (IH H2). reflexivity.
Qed.

(** Splitting what [join] has put together gives the pieces back, when no
    piece holds the separator. *)
Lemma split_join (c : ascii) (l : list string) :
  l <> [] -> Forall (fun x => Str.has_char c x = false) l ->
  Str.split c (Str.join (String c EmptyString) l) = l.
Proof.
  induction l as [|x l IH]; intros N H; [congruence|].
  inversion H as [|? ? Hx Hl]; subst.
  destruct l as [|y l].
  - simpl. now apply split_no_sep.
  - change (Str.join (String c EmptyString) (x :: y :: l))
      with (x ++ String c (Str.join (String c EmptyString) (y :: l)))%string.
    rewrite split_first by assumption. f_equal.
    apply IH; [discriminate | assumption].
Qed.

Lemma filter_all {A : Type} (f : A -> bool) (l : list A) :
  Forall (fun x => f x = true) l -> filter f l = l.
Proof.
  induction 1 as [|x l Hx _ IH]; simpl; [reflexivity|].
  now rewrite Hx, IH.
Qed.

Lemma is_name_is_part (x : string) : is_name x = true -> is_part x = true.
Proof.
  intros H. destruct (is_name_inv x H) as (E & _ & _).
  apply orb_false_iff in E as [E1 E2]. unfold is_part. now rewrite E1, E2.
Qed.

(** The path that prints as a slash and the names [rel], read back. *)
Lemma path_of_printed (rel : list string) :
  rel <> [] ->
  Forall (fun x => is_name x = true) rel ->
  Forall (fun x => Str.has_char "/" x = false) rel ->
  Path ("/" ++ Str.join "/" rel) = {| anchor := "/"; parts := rel |}.
Proof.
  intros N Hn Hs. unfold Path.
  change ("/" ++ Str.join "/" rel)%string with (String "/" (Str.join "/" rel)).
  rewrite splitroot_cons, Ascii.eqb_refl.
  assert (P : filter is_part (Str.split "/" (Str.join "/" rel)) = rel).
  { rewrite (split_join "/" rel N Hs). apply filter_all.
    eapply Forall_impl; [|exact Hn]. apply is_name_is_part. }
  assert (F : exists b r, Str.join "/" rel = String b r /\ Ascii.eqb b "/" = false).
  { destruct rel as [|x l]; [congruence|].
    inversion Hn as [|? ? Hx _]; inversion Hs as [|? ? Sx _]; subst.
    destruct x as [|b x]; [discriminate|].
    simpl in Sx. apply orb_false_iff in Sx as [Sb _].
    exists b. destruct l; simpl; eauto. }
  destruct F as (b & r & E & Nb). rewrite E in *. rewrite Nb.
  cbv beta match. now rewrite P.
Qed.

(** X18. What [get_current_directory] returns leads back to the cursor:
    given to [change_directory], it is accepted and leaves the world as it
    is, when the cursor is a directory that exists. *)
Theorem X18_current_directory_round_trip (depth : nat) (w : world)
  (rel : list string) (es : list (string * node)) :
  canonical (disk w) (root_path (self w)) = true ->
  canonical (disk w) (current_dir (self w)) = true ->
  current_dir (self w) = root_path (self w) ++ rel ->
  forallb (fun x => negb (Str.has_char "/" x)) rel = true ->
  Posix.lookup (disk w) (current_dir (self w)) = Ok (Dir es) ->
  exists s,
    get_current_directory (self w) = Ret s /\
    change_directory depth s w = (Ret ("已切换到: " ++ s)%string, w).
Proof.
  intros Hr Hc E Hs L. apply canonical_iff in Hr, Hc.
  exists ("/" ++ str_rel rel)%string. split.
  - unfold get_current_directory, relative_to. rewrite E.
    now rewrite strip_prefix_app.
  - assert (A : anchored (self w) (Path ("/" ++ str_rel rel))
                = root_path (self w) ++ rel).
    { destruct rel as [|x l] eqn:Er; [reflexivity|]. rewrite <- Er in *.
      assert (N : rel <> []) by (subst; discriminate).
      replace (str_rel rel) with (Str.join "/" rel) by (subst; reflexivity).
      rewrite path_of_printed; [reflexivity | assumption | |].
      - destruct Hc as [Hc _]. rewrite E in Hc.
        apply Forall_app in Hc. tauto.
      - apply Forall_forall. intros y Hy.
        rewrite forallb_forall in Hs. apply Hs in Hy.
        now apply negb_true_iff in Hy. }
    assert (G : change_directory depth ("/" ++ str_rel rel) w
                = (Ret ("已切换到: /" ++ str_rel rel)%string,
                   {| disk := disk w;
                      self := {| root_path := root_path (self w);
                                 current_dir := current_dir (self w) |} |})).
    { apply change_directory_moves; [| | |exact E].
      - apply resolve_path_accepts; try assumption.
        + rewrite A, <- E. now apply resolve_fixed.
        + rewrite E. destruct rel as [|x l].
          * left. now rewrite app_nil_r.
          * right. exists (x :: l). split; [discriminate | reflexivity].
        + intros _. eauto.
      - apply exists_lookup; eauto.
      - apply is_dir_lookup; eauto. }
    rewrite G. destruct w as [fs [r c]]. reflexivity.
Qed.

Lemma X18_witness :
  exists s,
    get_current_directory (self Sample.in_a) = Ret s /\
    change_directory 8 s Sample.in_a
    = (Ret ("已切换到: " ++ s)%string, Sample.in_a).
Proof.
  eapply (X18_current_directory_round_trip 8 Sample.in_a ["a"]); reflexivity.
Defined.
